(** * train_SFT.py: the data pipeline of the supervised fine-tuning driver

    A shallow embedding of [src/train/train_SFT.py]: the dataset loader
    ([SupervisedDataset.__init__]), the prompt formatter, the tokenizing
    preprocessor ([_tokenize_fn], [preprocess]) and the two collators of
    [DataCollatorForSupervisedDataset].

    The tokenizer, Python's [json] decoder, [str()] and [random.sample] are
    libraries the file calls; they enter as capability records.  Tensors of
    token ids are lists of integers, a batch tensor is a list of rows. *)

From stdpp Require Import base option list list_numbers strings gmap.
From Stdlib Require Import ZArith Lia Ascii.

Set Warnings "-register-all".

#[local] Open Scope string_scope.
#[local] Open Scope nat_scope.
#[local] Open Scope list_scope.

(** ** Module constants *)

Definition IGNORE_INDEX : Z := (-100)%Z.

(** ** Tensors *)

Module Tensor.

(** [t.ne(v)] on a one-dimensional tensor. *)
Definition ne1 (t : list Z) (v : Z) : list bool :=
  (λ x, negb (x =? v)%Z) <$> t.

(** [t.ne(v)] on a two-dimensional tensor. *)
Definition ne (t : list (list Z)) (v : Z) : list (list bool) :=
  (λ row, ne1 row v) <$> t.

(** [mask.sum().item()] on a boolean tensor of one row. *)
Definition sum1 (m : list bool) : nat :=
  length (filter (λ b, b = true) m).

(** [label[:n] = v] for a non-negative [n]: the slice is clamped to the
    tensor, every position of it receives [v]. *)
Definition fill_prefix (n : nat) (v : Z) (t : list Z) : list Z :=
  replicate (n `min` length t) v ++ drop n t.

(** [torch.nn.utils.rnn.pad_sequence(seqs, batch_first=True,
    padding_value=v)] on one-dimensional tensors.  An empty list of
    sequences raises; otherwise every sequence is extended on the right
    to the longest length. *)
Definition pad_sequence (seqs : list (list Z)) (v : Z) : option (list (list Z)) :=
  match seqs with
  | [] => None
  | _ =>
      let max_len := max_list_with length seqs in
      Some ((λ s, s ++ replicate (max_len - length s) v) <$> seqs)
  end.

(** [t.shape == [rows, cols]] for a batch tensor. *)
Definition has_shape {A} (t : list (list A)) (rows cols : nat) : Prop :=
  length t = rows ∧ Forall (λ row, length row = cols) t.

End Tensor.

(** ** The tokenizer capability *)

(** What the pipeline uses of a [transformers.PreTrainedTokenizer].
    [encode text] is row 0 of
    [tokenizer(text, return_tensors="pt", padding="longest",
               max_length=tokenizer.model_max_length, truncation=True).input_ids],
    the ids of one text, already truncated. *)
Record PreTrainedTokenizer := {
  encode : string → list Z;
  pad_token_id : Z;
  eos_token : string;
}.

(** A dictionary with the two keys [input_ids] and [labels]; the dataset
    stores strings under them, the preprocessor tensors. *)
Record instance (A : Type) := dict {
  input_ids : A;
  labels : A;
}.
Arguments dict {A} _ _.
Arguments input_ids {A} _.
Arguments labels {A} _.

(** The dictionary [_tokenize_fn] returns. *)
Record tokenized := {
  tk_input_ids : list (list Z);
  tk_labels : list (list Z);
  tk_input_ids_lens : list nat;
  tk_labels_lens : list nat;
}.

(** The dictionary both collators return. *)
Record batch := {
  batch_input_ids : list (list Z);
  batch_labels : list (list Z);
  batch_attention_mask : list (list bool);
}.

Section Pipeline.

Variable tokenizer : PreTrainedTokenizer.

(** [_tokenize_fn] *)
Definition _tokenize_fn (strings : list string) : tokenized :=
  let tokenized_list := encode tokenizer <$> strings in
  let ids := tokenized_list in
  let lens :=
    (λ t, Tensor.sum1 (Tensor.ne1 t (pad_token_id tokenizer))) <$> tokenized_list in
  {| tk_input_ids := ids; tk_labels := ids;
     tk_input_ids_lens := lens; tk_labels_lens := lens |}.

(** The loop [for label, source_len in zip(labels, lens): label[:source_len] = IGNORE_INDEX]:
    it stops at the shorter list and leaves the remaining labels as they are. *)
Fixpoint mask_labels (labels : list (list Z)) (lens : list nat) : list (list Z) :=
  match labels, lens with
  | label :: labels', source_len :: lens' =>
      Tensor.fill_prefix source_len IGNORE_INDEX label :: mask_labels labels' lens'
  | _, _ => labels
  end.

(** [preprocess] *)
Definition preprocess (sources targets : list string) : instance (list (list Z)) :=
  let examples := zip_with String.append sources targets in
  let examples_tokenized := _tokenize_fn examples in
  let sources_tokenized := _tokenize_fn sources in
  let ids := tk_input_ids examples_tokenized in
  let labels := mask_labels ids (tk_input_ids_lens sources_tokenized) in
  dict ids labels.

(** The padding stage shared, line for line, by both collators. *)
Definition pad_batch (ids labels : list (list Z)) : option batch :=
  ids' ← Tensor.pad_sequence ids (pad_token_id tokenizer);
  labels' ← Tensor.pad_sequence labels IGNORE_INDEX;
  Some {| batch_input_ids := ids';
          batch_labels := labels';
          batch_attention_mask := Tensor.ne ids' (pad_token_id tokenizer) |}.

(** [DataCollatorForSupervisedDataset.naive__call__]; [None] is the
    exception [pad_sequence] raises. *)
Definition naive__call__ (instances : list (instance (list Z))) : option batch :=
  let ids := input_ids <$> instances in
  let labels := labels <$> instances in
  pad_batch ids labels.

(** [DataCollatorForSupervisedDataset.__call__] *)
Definition __call__ (instances : list (instance string)) : option batch :=
  let sources := input_ids <$> instances in
  let targets := labels <$> instances in
  let data_dict := preprocess sources targets in
  pad_batch (input_ids data_dict) (labels data_dict).

End Pipeline.

(** ** Python values and exceptions *)

(** What [json.load] returns.  A number is carried by the text Python
    prints for it, a dictionary maps its (string) keys to values.  Strings
    are sequences of characters as [string] has them. *)
Inductive json :=
  | JNull
  | JBool (b : bool)
  | JNum (repr : string)
  | JStr (s : string)
  | JArr (l : list json)
  | JObj (m : gmap string json).

(** The exceptions the loader can end in. *)
Inductive exception :=
  | JSONDecodeError
  | TypeError
  | IndexError
  | KeyError (key : string).

(** A computation that returns or raises. *)
Inductive result (A : Type) :=
  | Ok (a : A)
  | Raise (e : exception).
Arguments Ok {A} _.
Arguments Raise {A} _.

#[global] Instance result_ret : MRet result := λ A a, Ok a.
#[global] Instance result_bind : MBind result := λ A B f x,
  match x with Ok a => f a | Raise e => Raise e end.
#[global] Instance result_fmap : FMap result := λ A B f x,
  match x with Ok a => Ok (f a) | Raise e => Raise e end.

(** [try: body  except BaseException: handler] *)
Definition try_except {A} (body handler : result A) : result A :=
  match body with Ok a => Ok a | Raise _ => handler end.

(** The parts of the Python runtime the loader calls.  [rng] is the state
    of the process-wide generator of module [random]. *)
Record Python (rng : Type) := {
  (** [json.loads(text)]; [None] when it raises [JSONDecodeError] *)
  json_loads : string → option json;
  (** [text.strip()] *)
  str_strip : string → string;
  (** [format(v, '')], which is [str(v)] *)
  str : json → string;
  (** [random.seed(n)]: the state it leaves *)
  random_seed : Z → rng;
  (** [random.sample(l, len(l))] and the state it leaves *)
  random_sample : rng → list json → list json * rng;
}.
Arguments json_loads {rng} _ _.
Arguments str_strip {rng} _ _.
Arguments str {rng} _ _.
Arguments random_seed {rng} _ _.
Arguments random_sample {rng} _ _ _.

(** What Python documents of them: a string prints as itself, and a sample
    as long as the population is a rearrangement of it. *)
Class PythonLaws {rng} (py : Python rng) : Prop := {
  str_of_str : ∀ s, str py (JStr s) = s;
  random_sample_perm : ∀ g l, (random_sample py g l).1 ≡ₚ l;
}.

Definition nl : string := String "010"%char EmptyString.

(** [f.readlines()] on the text of a file: the lines, each with its
    newline when it has one. *)
Fixpoint readlines (text : string) : list string :=
  match text with
  | EmptyString => []
  | String c rest =>
      if Ascii.eqb c "010"%char then String c EmptyString :: readlines rest
      else match readlines rest with
           | [] => [String c EmptyString]
           | line :: lines => String c line :: lines
           end
  end.

(** [l[:n]] *)
Definition slice_to {A} (l : list A) (n : Z) : list A :=
  if (0 <=? n)%Z then take (Z.to_nat n) l
  else take (length l - Z.to_nat (- n)) l.

(** [x[key]] for a string [key] *)
Definition getitem (x : json) (key : string) : result json :=
  match x with
  | JObj m =>
      match m !! key with
      | Some v => Ok v
      | None => Raise (KeyError key)
      end
  | _ => Raise TypeError
  end.

(** [key in x] for a string [key] *)
Definition contains (key : string) (x : json) : result bool :=
  match x with
  | JObj m => Ok (bool_decide (is_Some (m !! key)))
  | JArr l =>
      Ok (existsb (λ v, match v with JStr s => String.eqb s key | _ => false end) l)
  | JStr s => Ok (match String.index 0 key s with Some _ => true | None => false end)
  | _ => Raise TypeError
  end.

(** A format string, split at its replacement fields. *)
Inductive part :=
  | Lit (text : string)
  | Field (name : string).

(** [PROMPT_DICT["prompt_input"]] *)
Definition prompt_input : list part :=
  [ Lit ("<|user|>:" +:+ nl);
    Field "instruction";
    Lit (nl +:+ "<|assistant|>: Let's think step by step and solve the problem with code.") ].

(** The dataset object: its two attributes. *)
Record SupervisedDataset := {
  sources : list string;
  targets : list string;
}.

Section Loader.

Context {rng : Type}.
Variable py : Python rng.
Variable tokenizer : PreTrainedTokenizer.

(** [template.format_map(mapping)] *)
Fixpoint format_map (template : list part) (mapping : json) : result string :=
  match template with
  | [] => Ok EmptyString
  | Lit text :: template' =>
      rest ← format_map template' mapping;
      Ok (text +:+ rest)
  | Field name :: template' =>
      v ← getitem mapping name;
      rest ← format_map template' mapping;
      Ok (str py v +:+ rest)
  end.

(** [jload] on the text of the file *)
Definition jload (text : string) : result json :=
  match json_loads py text with
  | Some jdict => Ok jdict
  | None => Raise JSONDecodeError
  end.

(** Lines 158-163: the whole file as one document, else line by line. *)
Definition parse_file (text : string) : result json :=
  try_except (jload text)
    (JArr <$> mapM (λ line, jload (str_strip py line)) (readlines text)).

(** Line 165: [random.sample(x, len(x))].  Numbers, booleans and [None]
    have no [len]; a dictionary is no sequence; a string is the sequence
    of its characters. *)
Definition shuffle (x : json) (g : rng) : result (list json) * rng :=
  match x with
  | JArr l => let '(l', g') := random_sample py g l in (Ok l', g')
  | JStr s =>
      let chars := (λ c, JStr (String c EmptyString)) <$> String.list_ascii_of_string s in
      let '(l', g') := random_sample py g chars in (Ok l', g')
  | _ => (Raise TypeError, g)
  end.

(** Lines 158-167: [list_data_dict] after the truncation. *)
Definition load_records (text : string) (data_length : Z) (g : rng)
  : result (list json) * rng :=
  match parse_file text with
  | Raise e => (Raise e, g)
  | Ok list_data_dict =>
      let '(shuffled, g') := shuffle list_data_dict g in
      ((λ l, slice_to l data_length) <$> shuffled, g')
  end.

(** The comprehension of line 180, one record. *)
Definition rename (data : json) : result json :=
  q ← getitem data "query";
  r ← getitem data "response";
  Ok (JObj (<["instruction" := q]> (<["output" := r]> ∅))).

(** Lines 173-180: [list_data_dict] after the schema test on its first
    record. *)
Definition normalize (list_data_dict : list json) : result (list json) :=
  match list_data_dict with
  | [] => Raise IndexError
  | first :: _ =>
      has ← contains "instruction" first;
      if has : bool then Ok list_data_dict else mapM rename list_data_dict
  end.

(** The body of the loop of lines 187-191. *)
Definition render_source (example : json) : result string :=
  instruction ← getitem example "instruction";
  match instruction with
  | JStr EmptyString => Ok EmptyString
  | _ => format_map prompt_input example
  end.

(** One element of the comprehension of line 192. *)
Definition render_target (example : json) : result string :=
  output ← getitem example "output";
  Ok (str py output +:+ eos_token tokenizer).

(** Lines 182-195.  The first list of sources is computed and dropped. *)
Definition render (list_data_dict : list json) : result SupervisedDataset :=
  _ ← mapM (format_map prompt_input) list_data_dict;
  sources ← mapM render_source list_data_dict;
  targets ← mapM render_target list_data_dict;
  Ok {| sources := sources; targets := targets |}.

(** [SupervisedDataset.__init__] for the file text and [data_args.data_length]. *)
Definition __init__ (text : string) (data_length : Z) (g : rng)
  : result SupervisedDataset * rng :=
  let '(loaded, g') := load_records text data_length g in
  (list_data_dict ← loaded;
   list_data_dict ← normalize list_data_dict;
   render list_data_dict, g').

(** [SupervisedDataset.__len__] *)
Definition __len__ (self : SupervisedDataset) : nat := length (sources self).

(** [SupervisedDataset.__getitem__] at an index counted from the front. *)
Definition __getitem__ (self : SupervisedDataset) (i : nat) : result (instance string) :=
  match sources self !! i, targets self !! i with
  | Some source, Some target => Ok (dict source target)
  | _, _ => Raise IndexError
  end.

End Loader.

(** ** The pipeline as the specification words it *)

(** The tokenized examples of a preprocessed batch, one dictionary per
    example, as [naive__call__] takes them. *)
Definition examples_of (data_dict : instance (list (list Z))) : list (instance (list Z)) :=
  zip_with dict (input_ids data_dict) (labels data_dict).

(** Preprocess the strings, then collate the tokenized examples. *)
Definition preprocess_then_collate (tokenizer : PreTrainedTokenizer)
    (items : list (instance string)) : option batch :=
  naive__call__ tokenizer
    (examples_of (preprocess tokenizer (input_ids <$> items) (labels <$> items))).

(** A tokenized example of the data model: as many labels as ids. *)
Definition tokenized_example (x : instance (list Z)) : Prop :=
  length (input_ids x) = length (labels x).

(** The source of a record whose instruction is [i]: the template around
    the printed instruction, or nothing for the empty string. *)
Definition prompt_text {rng} (py : Python rng) (i : json) : string :=
  match i with
  | JStr EmptyString => EmptyString
  | _ =>
      ("<|user|>:" +:+ nl) +:+ str py i +:+
      (nl +:+ "<|assistant|>: Let's think step by step and solve the problem with code.")
  end.

(** A record (a dictionary) with instruction [i] and output [o]. *)
Definition record_of (r i o : json) : Prop :=
  ∃ m, r = JObj m ∧ m !! "instruction" = Some i ∧ m !! "output" = Some o.

(** A record of the alternate schema: keys [query] and [response], no
    key [instruction]. *)
Definition alternate_record (r q s : json) : Prop :=
  ∃ m, r = JObj m ∧ m !! "instruction" = None ∧
       m !! "query" = Some q ∧ m !! "response" = Some s.

(** The record line 180 builds from a query and a response. *)
Definition renamed (q s : json) : json :=
  JObj (<["instruction" := q]> (<["output" := s]> ∅)).

(** The loader of section 4.1, in its words: the file as a JSON array;
    on failure as newline-delimited JSON objects; a parse error if
    neither succeeds. *)
Definition parse_array_then_lines {rng} (py : Python rng) (text : string)
    : result (list json) :=
  match json_loads py text with
  | Some (JArr l) => Ok l
  | _ =>
      match mapM (λ line, match json_loads py (str_strip py line) with
                          | Some (JObj m) => Some (JObj m)
                          | _ => None
                          end) (readlines text) with
      | Some l => Ok l
      | None => Raise JSONDecodeError
      end
  end.

(** Lines 158-180: the records the constructor formats. *)
Definition loaded_records {rng} (py : Python rng) (text : string) (data_length : Z)
    (g : rng) : result (list json) :=
  list_data_dict ← (load_records py text data_length g).1;
  normalize list_data_dict.

(** ** Stand-ins for the libraries, for running the model *)

Module Fixture.

Definition dq : string := String "034"%char EmptyString.

(** A tokenizer with one id per character, pad id 0. *)
Definition char_tokenizer : PreTrainedTokenizer :=
  {| encode := λ text,
       (λ c, Z.of_N (N_of_ascii c)) <$> String.list_ascii_of_string text;
     pad_token_id := 0%Z;
     eos_token := "</s>" |}.

Definition is_space (c : ascii) : bool :=
  let n := N_of_ascii c in ((9 <=? n) && (n <=? 13) || (n =? 32))%N.

Fixpoint lstrip (l : list ascii) : list ascii :=
  match l with
  | c :: l' => if is_space c then lstrip l' else l
  | [] => []
  end.

Definition strip (text : string) : string :=
  String.string_of_list_ascii
    (reverse (lstrip (reverse (lstrip (String.list_ascii_of_string text))))).

Definition q_null : json :=
  JObj (<["query" := JStr "q"]> (<["response" := JNull]> ∅)).
Definition add_1_2 : json :=
  JObj (<["instruction" := JStr "Add 1 and 2."]> (<["output" := JStr "3"]> ∅)).
Definition say_hi : json :=
  JObj (<["query" := JStr "Say hi."]> (<["response" := JStr "hi"]> ∅)).
Definition no_prompt : json :=
  JObj (<["instruction" := JStr EmptyString]> (<["output" := JStr "x"]> ∅)).

(** The texts of a few files. *)
Definition add_1_2_line : string :=
  "{" +:+ dq +:+ "instruction" +:+ dq +:+ ": " +:+ dq +:+ "Add 1 and 2." +:+ dq +:+
  ", " +:+ dq +:+ "output" +:+ dq +:+ ": " +:+ dq +:+ "3" +:+ dq +:+ "}".
Definition no_prompt_line : string :=
  "{" +:+ dq +:+ "instruction" +:+ dq +:+ ": " +:+ dq +:+ dq +:+
  ", " +:+ dq +:+ "output" +:+ dq +:+ ": " +:+ dq +:+ "x" +:+ dq +:+ "}".
Definition say_hi_line : string :=
  "{" +:+ dq +:+ "query" +:+ dq +:+ ": " +:+ dq +:+ "Say hi." +:+ dq +:+
  ", " +:+ dq +:+ "response" +:+ dq +:+ ": " +:+ dq +:+ "hi" +:+ dq +:+ "}".
Definition q_null_line : string :=
  "{" +:+ dq +:+ "query" +:+ dq +:+ ": " +:+ dq +:+ "q" +:+ dq +:+
  ", " +:+ dq +:+ "response" +:+ dq +:+ ": null}".

Definition one_object_file : string := add_1_2_line +:+ nl.
Definition two_line_file : string := add_1_2_line +:+ nl +:+ no_prompt_line +:+ nl.
Definition broken_file : string := add_1_2_line +:+ nl +:+ "{oops" +:+ nl.
Definition array_file : string := "[" +:+ add_1_2_line +:+ ", " +:+ no_prompt_line +:+ "]".
Definition alternate_file : string := "[" +:+ say_hi_line +:+ "]".
Definition null_response_file : string := "[" +:+ q_null_line +:+ "]".
Definition empty_array_file : string := "[]".

(** [json.loads] on the documents above; every other text is refused. *)
Definition documents : list (string * json) :=
  [ (add_1_2_line, add_1_2); (no_prompt_line, no_prompt);
    (say_hi_line, say_hi); (q_null_line, q_null);
    (array_file, JArr [add_1_2; no_prompt]);
    (alternate_file, JArr [say_hi]);
    (null_response_file, JArr [q_null]);
    (empty_array_file, JArr []) ].

Fixpoint find_document (text : string) (docs : list (string * json)) : option json :=
  match docs with
  | [] => None
  | (t, v) :: docs' => if String.eqb text t then Some v else find_document text docs'
  end.

Definition loads (text : string) : option json :=
  find_document (strip text) documents.

(** [str()] of the scalars; a list or a dictionary is not printed. *)
Definition str_scalar (v : json) : string :=
  match v with
  | JNull => "None"
  | JBool true => "True"
  | JBool false => "False"
  | JNum repr => repr
  | JStr s => s
  | JArr _ => "[...]"
  | JObj _ => "{...}"
  end.

(** A generator whose state counts the draws and rotates by it. *)
Definition python : Python nat :=
  {| json_loads := loads;
     str_strip := strip;
     str := str_scalar;
     random_seed := Z.to_nat;
     random_sample := λ g l, (rotate g l, S g) |}.

End Fixture.


(** A text without a newline. *)
Definition no_newline (body : string) : Prop :=
  "010"%char ∉ String.list_ascii_of_string body.

(** ** [smart_tokenizer_and_embedding_resize] *)

(** A model as the function uses it: its parameter tensors, each a matrix
    given by its rows, and which of them [get_input_embeddings().weight.data]
    and [get_output_embeddings().weight.data] are; with tied weights the
    two are one tensor. *)
Record PreTrainedModel (row : Type) := {
  tensors : gmap nat (list row);
  input_embeddings : nat;
  output_embeddings : nat;
}.
Arguments tensors {row} _.
Arguments input_embeddings {row} _.
Arguments output_embeddings {row} _.

(** The library calls of the function, over the state of a tokenizer that
    grows and a dictionary of special tokens. *)
Record Transformers (row tokenizer_state special_tokens : Type) := {
  (** [tokenizer.add_special_tokens(d)]: the number of tokens added and the
      tokenizer after *)
  add_special_tokens : tokenizer_state → special_tokens → nat * tokenizer_state;
  (** [len(tokenizer)] *)
  len : tokenizer_state → nat;
  (** [model.resize_token_embeddings(n)] *)
  resize_token_embeddings : PreTrainedModel row → nat → PreTrainedModel row;
  (** [t.mean(dim=0, keepdim=True)] of a matrix, as one row *)
  mean : list row → row;
}.
Arguments add_special_tokens {row tokenizer_state special_tokens} _ _ _.
Arguments len {row tokenizer_state special_tokens} _ _.
Arguments resize_token_embeddings {row tokenizer_state special_tokens} _ _ _.
Arguments mean {row tokenizer_state special_tokens} _ _.

(** [t[:-k]] for a positive [k] *)
Definition rows_before_last {row} (k : nat) (t : list row) : list row :=
  take (length t - k) t.

(** [t[-k:] = r] for a positive [k]: the row is broadcast over the slice. *)
Definition set_last_rows {row} (k : nat) (r : row) (t : list row) : list row :=
  take (length t - k) t ++ replicate (length t - (length t - k)) r.

(** [smart_tokenizer_and_embedding_resize]: both averages are taken before
    either tensor is written. *)
Definition smart_tokenizer_and_embedding_resize {row tokenizer_state special_tokens}
    (hf : Transformers row tokenizer_state special_tokens)
    (special_tokens_dict : special_tokens) (tokenizer : tokenizer_state)
    (model : PreTrainedModel row) : tokenizer_state * PreTrainedModel row :=
  let '(num_new_tokens, tokenizer) := add_special_tokens hf tokenizer special_tokens_dict in
  let model := resize_token_embeddings hf model (len hf tokenizer) in
  if 0 <? num_new_tokens then
    let input := input_embeddings model in
    let output := output_embeddings model in
    let input_embeddings_avg :=
      mean hf (rows_before_last num_new_tokens (tensors model !!! input)) in
    let output_embeddings_avg :=
      mean hf (rows_before_last num_new_tokens (tensors model !!! output)) in
    let tensors1 :=
      <[input := set_last_rows num_new_tokens input_embeddings_avg
                   (tensors model !!! input)]> (tensors model) in
    let tensors2 :=
      <[output := set_last_rows num_new_tokens output_embeddings_avg
                    (tensors1 !!! output)]> tensors1 in
    (tokenizer, {| tensors := tensors2;
                   input_embeddings := input;
                   output_embeddings := output |})
  else (tokenizer, model).

(** ** More stand-ins *)

Module Cases.

(** A tokenizer with one id per character that keeps at most
    [model_max_length] ids of a text; pad id 0. *)
Definition truncating_tokenizer (model_max_length : nat) : PreTrainedTokenizer :=
  {| encode := λ text,
       take model_max_length
         ((λ c, Z.of_N (N_of_ascii c)) <$> String.list_ascii_of_string text);
     pad_token_id := 0%Z;
     eos_token := "</s>" |}.

Definition only_instruction : json :=
  JObj (<["instruction" := JStr "x"]> ∅).
Definition only_query : json :=
  JObj (<["query" := JStr "q2"]> ∅).

Definition only_instruction_line : string :=
  "{" +:+ Fixture.dq +:+ "instruction" +:+ Fixture.dq +:+ ": " +:+
  Fixture.dq +:+ "x" +:+ Fixture.dq +:+ "}".
Definition only_query_line : string :=
  "{" +:+ Fixture.dq +:+ "query" +:+ Fixture.dq +:+ ": " +:+
  Fixture.dq +:+ "q2" +:+ Fixture.dq +:+ "}".

(** The texts of a few more files. *)
Definition mixed_file : string :=
  "[" +:+ Fixture.add_1_2_line +:+ ", " +:+ Fixture.say_hi_line +:+ "]".
Definition no_output_file : string := "[" +:+ only_instruction_line +:+ "]".
Definition no_response_file : string :=
  "[" +:+ Fixture.say_hi_line +:+ ", " +:+ only_query_line +:+ "]".
Definition string_file : string := Fixture.dq +:+ "ab" +:+ Fixture.dq.
Definition number_file : string := "7".

Definition documents : list (string * json) :=
  [ (mixed_file, JArr [Fixture.add_1_2; Fixture.say_hi]);
    (no_output_file, JArr [only_instruction]);
    (no_response_file, JArr [Fixture.say_hi; only_query]);
    (string_file, JStr "ab");
    (number_file, JNum "7") ].

(** [json.loads] on these documents and on those of [Fixture]. *)
Definition loads (text : string) : option json :=
  match Fixture.find_document (Fixture.strip text) documents with
  | Some v => Some v
  | None => Fixture.loads text
  end.

Definition python : Python nat :=
  {| json_loads := loads;
     str_strip := Fixture.strip;
     str := Fixture.str_scalar;
     random_seed := Z.to_nat;
     random_sample := λ g l, (rotate g l, S g) |}.

(** A stand-in for the library of embeddings: rows are integers, the
    mean is the integer mean, the vocabulary is a list of tokens, and
    resizing fills new rows with 0. *)
Definition int_mean (rows : list Z) : Z :=
  (foldr Z.add 0 rows / Z.of_nat (length rows))%Z.

Definition add_tokens (vocabulary new : list string) : nat * list string :=
  let fresh := filter (λ t, t ∉ vocabulary) new in
  (length fresh, vocabulary ++ fresh).

Definition resize_rows (model : PreTrainedModel Z) (n : nat) : PreTrainedModel Z :=
  {| tensors :=
       alter (resize n 0%Z) (output_embeddings model)
         (alter (resize n 0%Z) (input_embeddings model) (tensors model));
     input_embeddings := input_embeddings model;
     output_embeddings := output_embeddings model |}.

Definition transformers : Transformers Z (list string) (list string) :=
  {| add_special_tokens := add_tokens;
     len := length;
     resize_token_embeddings := resize_rows;
     mean := int_mean |}.

(** A model with tied embeddings of two rows. *)
Definition tied_model : PreTrainedModel Z :=
  {| tensors := {[ 0 := [2; 4]%Z ]}; input_embeddings := 0; output_embeddings := 0 |}.

(** A model with separate embeddings and one more tensor. *)
Definition untied_model : PreTrainedModel Z :=
  {| tensors := {[ 0 := [2; 4]%Z; 1 := [10; 30]%Z; 2 := [7]%Z ]};
     input_embeddings := 0; output_embeddings := 1 |}.

End Cases.

(** ** Tensors: slices, padding, masks *)

Section TensorFacts.

Implicit Types (t row : list Z) (seqs : list (list Z)) (v : Z) (n i : nat).

Lemma length_fill_prefix n v t :
  length (Tensor.fill_prefix n v t) = length t.
Proof.
  unfold Tensor.fill_prefix.
  rewrite length_app, length_replicate, length_drop. lia.
Qed.

Lemma lookup_fill_prefix_lt n v t i :
  i < n → i < length t → Tensor.fill_prefix n v t !! i = Some v.
Proof.
  intros Hn Ht. unfold Tensor.fill_prefix.
  rewrite lookup_app_l by (rewrite length_replicate; lia).
  apply lookup_replicate_2. lia.
Qed.

Lemma lookup_fill_prefix_ge n v t i :
  n ≤ i → Tensor.fill_prefix n v t !! i = t !! i.
Proof.
  intros Hn. unfold Tensor.fill_prefix.
  destruct (decide (i < length t)) as [Hlt|Hge].
  - rewrite lookup_app_r by (rewrite length_replicate; lia).
    rewrite length_replicate, lookup_drop. f_equal. lia.
  - rewrite (lookup_ge_None_2 t) by lia.
    apply lookup_ge_None_2.
    rewrite length_app, length_replicate, length_drop. lia.
Qed.

(** The number of [true] in the mask of a row is the number of its
    entries other than [v]. *)
Lemma sum1_ne1 t v :
  Tensor.sum1 (Tensor.ne1 t v) = length (filter (λ x, x ≠ v) t).
Proof.
  unfold Tensor.sum1, Tensor.ne1.
  induction t as [|x t IH]; [done|].
  rewrite fmap_cons, !filter_cons.
  destruct (Z.eqb_spec x v) as [->|Hne]; repeat case_decide; simpl; try done.
  by rewrite IH.
Qed.

Lemma sum1_ne1_absent t v :
  v ∉ t → Tensor.sum1 (Tensor.ne1 t v) = length t.
Proof.
  intros Hv. rewrite sum1_ne1. f_equal.
  induction t as [|x t IH]; [done|].
  apply not_elem_of_cons in Hv as [Hx Ht].
  rewrite filter_cons. case_decide; [|done]. f_equal. by apply IH.
Qed.

Lemma sum1_ne1_app t1 t2 v :
  Tensor.sum1 (Tensor.ne1 (t1 ++ t2) v)
  = Tensor.sum1 (Tensor.ne1 t1 v) + Tensor.sum1 (Tensor.ne1 t2 v).
Proof. rewrite !sum1_ne1, filter_app, length_app. done. Qed.

Lemma sum1_ne1_replicate n v :
  Tensor.sum1 (Tensor.ne1 (replicate n v) v) = 0.
Proof.
  rewrite sum1_ne1. induction n as [|n IH]; [done|].
  simpl. rewrite filter_cons. by case_decide.
Qed.

Lemma max_list_with_ge {A} (f : A → nat) (l : list A) x :
  x ∈ l → f x ≤ max_list_with f l.
Proof.
  induction 1 as [x l|x y l _ IH]; simpl; lia.
Qed.

Lemma max_list_with_attained {A} (f : A → nat) (l : list A) :
  l ≠ [] → ∃ x, x ∈ l ∧ f x = max_list_with f l.
Proof.
  induction l as [|x l IH]; [done|]. intros _.
  destruct l as [|y l].
  - exists x. split; [left|simpl; lia].
  - destruct IH as (z & Hz & Hfz); [done|].
    destruct (decide (f x ≤ max_list_with f (y :: l))) as [Hle|Hgt].
    + exists z. split; [by right|]. rewrite Hfz.
      change (max_list_with f (x :: y :: l))
        with (f x `max` max_list_with f (y :: l)). lia.
    + exists x. split; [left|].
      change (max_list_with f (x :: y :: l))
        with (f x `max` max_list_with f (y :: l)). lia.
Qed.

Lemma max_list_with_fmap {A B} (f : B → nat) (g : A → B) (l : list A) :
  max_list_with f (g <$> l) = max_list_with (f ∘ g) l.
Proof.
  induction l as [|x l IH]; [done|]. rewrite fmap_cons.
  change (max_list_with f (g x :: (g <$> l)))
    with (f (g x) `max` max_list_with f (g <$> l)).
  by rewrite IH.
Qed.

Lemma max_list_with_const {A} (f : A → nat) (l : list A) n :
  l ≠ [] → Forall (λ x, f x = n) l → max_list_with f l = n.
Proof.
  intros Hne Hall. induction Hall as [|x l Hx Hall IH]; [done|].
  destruct l as [|y l]; [simpl; lia|].
  change (max_list_with f (x :: y :: l))
    with (f x `max` max_list_with f (y :: l)).
  rewrite IH by done. lia.
Qed.

(** A non-empty list of sequences is padded, row by row. *)
Lemma pad_sequence_Some seqs v :
  seqs ≠ [] →
  Tensor.pad_sequence seqs v
  = Some ((λ s, s ++ replicate (max_list_with length seqs - length s) v) <$> seqs).
Proof. by destruct seqs. Qed.

Lemma pad_sequence_shape seqs v padded :
  Tensor.pad_sequence seqs v = Some padded →
  Tensor.has_shape padded (length seqs) (max_list_with length seqs).
Proof.
  intros Hpad. assert (seqs ≠ []) as Hne by (by destruct seqs).
  rewrite pad_sequence_Some in Hpad by done. injection Hpad as <-.
  split; [by rewrite length_fmap|].
  apply Forall_fmap, Forall_forall. intros s Hs. simpl.
  rewrite length_app, length_replicate.
  pose proof (max_list_with_ge length seqs s Hs). lia.
Qed.

Lemma pad_sequence_uniform seqs v n :
  seqs ≠ [] → Forall (λ s, length s = n) seqs →
  Tensor.pad_sequence seqs v = Some seqs.
Proof.
  intros Hne Hall. rewrite pad_sequence_Some by done. f_equal.
  rewrite (max_list_with_const length seqs n) by done.
  rewrite <-(list_fmap_id seqs) at 2.
  apply Forall_fmap_ext_1. eapply Forall_impl; [exact Hall|].
  intros s ->. simpl. rewrite Nat.sub_diag. apply app_nil_r.
Qed.

End TensorFacts.

(** ** The preprocessor *)

Section PreprocessFacts.

Variable tok : PreTrainedTokenizer.

Lemma length_mask_labels (labels : list (list Z)) (lens : list nat) :
  length (mask_labels labels lens) = length labels.
Proof.
  revert lens. induction labels as [|label labels IH]; intros [|n lens]; simpl; auto.
Qed.

Lemma lookup_mask_labels (labels : list (list Z)) (lens : list nat) k label n :
  labels !! k = Some label → lens !! k = Some n →
  mask_labels labels lens !! k = Some (Tensor.fill_prefix n IGNORE_INDEX label).
Proof.
  revert lens k.
  induction labels as [|l0 labels IH]; intros [|n0 lens] [|k]; simpl; try done.
  - by intros [= ->] [= ->].
  - apply IH.
Qed.

Lemma length_preprocess sources targets :
  length (input_ids (preprocess tok sources targets)) = length sources `min` length targets
  ∧ length (labels (preprocess tok sources targets)) = length sources `min` length targets.
Proof.
  unfold preprocess, _tokenize_fn; simpl.
  rewrite length_mask_labels, length_fmap, length_zip_with. done.
Qed.

(** Example [k] of a preprocessed batch comes from source [k] and target [k]. *)
Lemma lookup_preprocess_inv sources targets k ids :
  input_ids (preprocess tok sources targets) !! k = Some ids →
  ∃ source target,
    sources !! k = Some source ∧ targets !! k = Some target ∧
    ids = encode tok (source +:+ target).
Proof.
  unfold preprocess, _tokenize_fn; simpl.
  rewrite list_lookup_fmap, lookup_zip_with.
  destruct (sources !! k) as [source|]; [|done].
  destruct (targets !! k) as [target|]; [|done].
  simpl. intros [= <-]. by exists source, target.
Qed.

Lemma lookup_preprocess_labels sources targets k source target :
  sources !! k = Some source → targets !! k = Some target →
  labels (preprocess tok sources targets) !! k
  = Some (Tensor.fill_prefix
            (Tensor.sum1 (Tensor.ne1 (encode tok source) (pad_token_id tok)))
            IGNORE_INDEX (encode tok (source +:+ target))).
Proof.
  intros Hs Ht. unfold preprocess, _tokenize_fn; simpl.
  apply lookup_mask_labels.
  - by rewrite list_lookup_fmap, lookup_zip_with, Hs, Ht.
  - by rewrite !list_lookup_fmap, Hs.
Qed.

End PreprocessFacts.

(** C1.  Every example [preprocess] produces is the tokenization of source
    plus target; its labels are as many as its ids; the labels before
    position [source_len], the count of non-pad ids in the tokenization of
    the source alone, are [IGNORE_INDEX], and every label from there on is
    the id at its position. *)
Theorem preprocess_masks_source_span
    (tok : PreTrainedTokenizer) (sources targets : list string) (k : nat) (ids : list Z)
    (Hk : input_ids (preprocess tok sources targets) !! k = Some ids) :
  ∃ source target lab,
    sources !! k = Some source ∧ targets !! k = Some target ∧
    ids = encode tok (source +:+ target) ∧
    labels (preprocess tok sources targets) !! k = Some lab ∧
    length ids = length lab ∧
    let source_len := Tensor.sum1 (Tensor.ne1 (encode tok source) (pad_token_id tok)) in
    (∀ i, i < source_len → i < length lab → lab !! i = Some IGNORE_INDEX) ∧
    (∀ i, source_len ≤ i → lab !! i = ids !! i).
Proof.
  destruct (lookup_preprocess_inv tok _ _ _ _ Hk) as (source & target & Hs & Ht & ->).
  exists source, target,
    (Tensor.fill_prefix
       (Tensor.sum1 (Tensor.ne1 (encode tok source) (pad_token_id tok)))
       IGNORE_INDEX (encode tok (source +:+ target))).
  do 3 (split; [done|]).
  split; [by apply lookup_preprocess_labels|].
  split; [by rewrite length_fill_prefix|].
  intros source_len. split.
  - intros i Hi Hlen. rewrite length_fill_prefix in Hlen.
    by apply lookup_fill_prefix_lt.
  - intros i Hi. by apply lookup_fill_prefix_ge.
Qed.

Lemma preprocess_masks_source_span_witness :
  ∃ source target lab,
    ["ab"; EmptyString] !! 0 = Some source ∧ ["c"; "wxyz"] !! 0 = Some target ∧
    [97; 98; 99]%Z = encode Fixture.char_tokenizer (source +:+ target) ∧
    labels (preprocess Fixture.char_tokenizer ["ab"; EmptyString] ["c"; "wxyz"]) !! 0
      = Some lab ∧
    length [97; 98; 99]%Z = length lab ∧
    let source_len :=
      Tensor.sum1 (Tensor.ne1 (encode Fixture.char_tokenizer source)
                              (pad_token_id Fixture.char_tokenizer)) in
    (∀ i, i < source_len → i < length lab → lab !! i = Some IGNORE_INDEX) ∧
    (∀ i, source_len ≤ i → lab !! i = [97; 98; 99]%Z !! i).
Proof.
  apply (preprocess_masks_source_span Fixture.char_tokenizer
           ["ab"; EmptyString] ["c"; "wxyz"] 0 [97; 98; 99]%Z).
  reflexivity.
Defined.

(** ** The collators *)

Section CollatorFacts.

Variable tok : PreTrainedTokenizer.

Lemma input_ids_examples_of (data_dict : instance (list (list Z))) :
  length (input_ids data_dict) = length (labels data_dict) →
  input_ids <$> examples_of data_dict = input_ids data_dict
  ∧ labels <$> examples_of data_dict = labels data_dict.
Proof.
  unfold examples_of. destruct data_dict as [ids labs]; simpl.
  revert labs. induction ids as [|x ids IH]; intros [|y labs] Hlen; csimpl in *;
    try done.
  destruct (IH labs) as [-> ->]; [lia|done].
Qed.

(** Both collators end in the same padding stage. *)
Lemma naive_call_examples_of (data_dict : instance (list (list Z))) :
  length (input_ids data_dict) = length (labels data_dict) →
  naive__call__ tok (examples_of data_dict)
  = pad_batch tok (input_ids data_dict) (labels data_dict).
Proof.
  intros Hlen. unfold naive__call__.
  by destruct (input_ids_examples_of data_dict Hlen) as [-> ->].
Qed.

Lemma call_refines (items : list (instance string)) :
  __call__ tok items = preprocess_then_collate tok items.
Proof.
  unfold __call__, preprocess_then_collate.
  rewrite naive_call_examples_of; [done|].
  destruct (length_preprocess tok (input_ids <$> items) (labels <$> items)) as [-> ->].
  done.
Qed.

Lemma pad_batch_Some (ids labs : list (list Z)) :
  ids ≠ [] → labs ≠ [] →
  pad_batch tok ids labs =
  let ids' := (λ s, s ++ replicate (max_list_with length ids - length s)
                                   (pad_token_id tok)) <$> ids in
  Some {| batch_input_ids := ids';
          batch_labels :=
            (λ s, s ++ replicate (max_list_with length labs - length s) IGNORE_INDEX)
              <$> labs;
          batch_attention_mask := Tensor.ne ids' (pad_token_id tok) |}.
Proof.
  intros Hi Hl. unfold pad_batch. by rewrite !pad_sequence_Some.
Qed.

Lemma pad_batch_uniform (ids labs : list (list Z)) n m :
  ids ≠ [] → labs ≠ [] →
  Forall (λ s, length s = n) ids → Forall (λ s, length s = m) labs →
  pad_batch tok ids labs =
  Some {| batch_input_ids := ids; batch_labels := labs;
          batch_attention_mask := Tensor.ne ids (pad_token_id tok) |}.
Proof.
  intros Hi Hl Hn Hm. unfold pad_batch.
  by rewrite (pad_sequence_uniform ids _ n), (pad_sequence_uniform labs _ m).
Qed.

Lemma padded_rows_uniform (seqs : list (list Z)) v :
  Forall (λ s, length s = max_list_with length seqs)
    ((λ s, s ++ replicate (max_list_with length seqs - length s) v) <$> seqs).
Proof.
  apply Forall_fmap, Forall_forall. intros s Hs. simpl.
  rewrite length_app, length_replicate.
  pose proof (max_list_with_ge length seqs s Hs). lia.
Qed.

(** The mask of a padded row counts the ids of the sequence that are not
    the pad id. *)
Lemma sum1_mask_padded_row (s : list Z) n :
  Tensor.sum1 (Tensor.ne1 (s ++ replicate n (pad_token_id tok)) (pad_token_id tok))
  = Tensor.sum1 (Tensor.ne1 s (pad_token_id tok)).
Proof. rewrite sum1_ne1_app, sum1_ne1_replicate. lia. Qed.

End CollatorFacts.

(** C2.  On the items [__getitem__] returns for any indices, the lazy
    collator [__call__] yields the batch that preprocessing the strings and
    collating the tokenized examples with [naive__call__] yields; the same
    holds when fetching an item raises. *)
Theorem lazy_collator_refines_preprocess_then_collate
    (tok : PreTrainedTokenizer) (self : SupervisedDataset) (indices : list nat) :
  __call__ tok <$> mapM (__getitem__ self) indices
  = preprocess_then_collate tok <$> mapM (__getitem__ self) indices.
Proof.
  destruct (mapM (__getitem__ self) indices) as [items|e]; [|done].
  simpl. f_equal. apply call_refines.
Qed.

(** C3.  On a non-empty batch [naive__call__] returns; row [k] of its
    [input_ids] is sequence [k] followed by pad ids, row [k] of its [labels]
    is label sequence [k] followed by [IGNORE_INDEX]; each tensor has one
    row per instance and as many columns as its longest sequence, a length
    that is reached and not exceeded in the batch; the two widths agree when
    every instance has as many labels as ids; and the attention mask is
    [input_ids != pad_id], entry by entry. *)
Theorem naive_call_pads_to_batch_max
    (tok : PreTrainedTokenizer) (instances : list (instance (list Z)))
    (Hne : instances ≠ []) :
  let pad := pad_token_id tok in
  let n_ids := max_list_with (λ x, length (input_ids x)) instances in
  let n_labels := max_list_with (λ x, length (labels x)) instances in
  ∃ b, naive__call__ tok instances = Some b ∧
    batch_input_ids b
      = (λ x, input_ids x ++ replicate (n_ids - length (input_ids x)) pad) <$> instances ∧
    batch_labels b
      = (λ x, labels x ++ replicate (n_labels - length (labels x)) IGNORE_INDEX)
          <$> instances ∧
    Tensor.has_shape (batch_input_ids b) (length instances) n_ids ∧
    Tensor.has_shape (batch_labels b) (length instances) n_labels ∧
    Forall (λ x, length (input_ids x) ≤ n_ids) instances ∧
    Exists (λ x, length (input_ids x) = n_ids) instances ∧
    (Forall tokenized_example instances → n_labels = n_ids) ∧
    batch_attention_mask b = Tensor.ne (batch_input_ids b) pad ∧
    (∀ k i row x, batch_input_ids b !! k = Some row → row !! i = Some x →
       ∃ mrow, batch_attention_mask b !! k = Some mrow ∧
               mrow !! i = Some (bool_decide (x ≠ pad))).
Proof.
  intros pad n_ids n_labels.
  assert (input_ids <$> instances ≠ []) as Hi by (by destruct instances).
  assert (labels <$> instances ≠ []) as Hl by (by destruct instances).
  unfold naive__call__. rewrite pad_batch_Some by done. cbv zeta.
  rewrite !max_list_with_fmap, <-!list_fmap_compose.
  eexists. split; [reflexivity|]. cbn [batch_input_ids batch_labels batch_attention_mask].
  fold pad.
  change (max_list_with (length ∘ input_ids) instances) with n_ids.
  change (max_list_with (length ∘ labels) instances) with n_labels.
  assert (Forall (λ x, length (input_ids x) ≤ n_ids) instances) as Hle.
  { apply Forall_forall. intros x Hx.
    apply (max_list_with_ge (λ x, length (input_ids x)) instances x Hx). }
  assert (Forall (λ x, length (labels x) ≤ n_labels) instances) as Hle'.
  { apply Forall_forall. intros x Hx.
    apply (max_list_with_ge (λ x, length (labels x)) instances x Hx). }
  split_and!; try done.
  - split; [by rewrite length_fmap|]. apply Forall_fmap.
    eapply Forall_impl; [exact Hle|]. intros x Hx. simpl in *.
    rewrite length_app, length_replicate. lia.
  - split; [by rewrite length_fmap|]. apply Forall_fmap.
    eapply Forall_impl; [exact Hle'|]. intros x Hx. simpl in *.
    rewrite length_app, length_replicate. lia.
  - destruct (max_list_with_attained (λ x, length (input_ids x)) instances Hne)
      as (x & Hx & Hmax).
    apply Exists_exists. by exists x.
  - intros Htok. unfold n_labels, n_ids.
    clear -Htok. induction Htok as [|x l Hx _ IH]; [done|].
    simpl. rewrite IH. unfold tokenized_example in Hx. lia.
  - intros k i row x Hrow Hx. unfold Tensor.ne.
    rewrite list_lookup_fmap, Hrow. simpl. eexists. split; [done|].
    unfold Tensor.ne1. rewrite list_lookup_fmap, Hx. simpl. f_equal.
    destruct (Z.eqb_spec x pad); by case_bool_decide.
Qed.

Lemma naive_call_pads_to_batch_max_witness :
  ∃ b, naive__call__ Fixture.char_tokenizer
         [dict [7; 8; 9]%Z [7; 8; 9]%Z; dict [5]%Z [5]%Z] = Some b
       ∧ batch_input_ids b = [[7; 8; 9]; [5; 0; 0]]%Z
       ∧ batch_labels b = [[7; 8; 9]; [5; -100; -100]]%Z
       ∧ batch_attention_mask b = [[true; true; true]; [true; false; false]].
Proof.
  destruct (naive_call_pads_to_batch_max Fixture.char_tokenizer
              [dict [7; 8; 9]%Z [7; 8; 9]%Z; dict [5]%Z [5]%Z])
    as (b & Hb & Hids & Hlabels & _ & _ & _ & _ & _ & Hmask & _).
  - discriminate.
  - exists b. rewrite Hmask, Hids, Hlabels. repeat split. exact Hb.
Defined.

(** C8.  On a batch whose id sequences all have one length and whose label
    sequences all have one length, padding adds nothing: the rows of the
    collated [input_ids] and [labels] are the sequences as given (an empty
    batch is refused by [pad_sequence], as always).  And collation is
    idempotent: collating the rows of any collated batch returns that
    batch. *)
Theorem naive_call_equal_lengths_noop
    (tok : PreTrainedTokenizer) (instances : list (instance (list Z))) (n m : nat)
    (Hids : Forall (λ x, length (input_ids x) = n) instances)
    (Hlabels : Forall (λ x, length (labels x) = m) instances) :
  naive__call__ tok instances
  = match instances with
    | [] => None
    | _ => Some {| batch_input_ids := input_ids <$> instances;
                   batch_labels := labels <$> instances;
                   batch_attention_mask :=
                     Tensor.ne (input_ids <$> instances) (pad_token_id tok) |}
    end
  ∧ ∀ b, naive__call__ tok instances = Some b →
      naive__call__ tok (examples_of (dict (batch_input_ids b) (batch_labels b)))
      = Some b.
Proof.
  destruct (decide (instances = [])) as [->|Hne]; [by split|].
  assert (naive__call__ tok instances
          = Some {| batch_input_ids := input_ids <$> instances;
                    batch_labels := labels <$> instances;
                    batch_attention_mask :=
                      Tensor.ne (input_ids <$> instances) (pad_token_id tok) |}) as Hcall.
  { unfold naive__call__. apply (pad_batch_uniform tok _ _ n m).
    - by destruct instances.
    - by destruct instances.
    - by apply Forall_fmap.
    - by apply Forall_fmap. }
  split; [rewrite Hcall; by destruct instances|].
  intros b Hb. rewrite Hcall in Hb. injection Hb as <-.
  cbn [batch_input_ids batch_labels].
  rewrite naive_call_examples_of by (cbn [input_ids labels]; by rewrite !length_fmap).
  cbn [input_ids labels]. apply (pad_batch_uniform tok _ _ n m).
  - by destruct instances.
  - by destruct instances.
  - by apply Forall_fmap.
  - by apply Forall_fmap.
Qed.

Lemma naive_call_equal_lengths_noop_witness :
  naive__call__ Fixture.char_tokenizer [dict [7; 0; 9]%Z [-100; 0; 9]%Z; dict [4; 5; 6]%Z [4; 5; 6]%Z]
  = Some {| batch_input_ids := [[7; 0; 9]; [4; 5; 6]]%Z;
            batch_labels := [[-100; 0; 9]; [4; 5; 6]]%Z;
            batch_attention_mask := [[true; false; true]; [true; true; true]] |}.
Proof.
  apply (naive_call_equal_lengths_noop Fixture.char_tokenizer
           [dict [7; 0; 9]%Z [-100; 0; 9]%Z; dict [4; 5; 6]%Z [4; 5; 6]%Z] 3 3).
  - repeat constructor.
  - repeat constructor.
Defined.

(** C9, as the code has it.  Two tokenized examples with 5 and 8 ids collate
    to [input_ids] and [labels] of shape [2, 8]; the first row of the
    attention mask has as many [true] as the first example has ids other
    than the pad id, which is 5 when the pad id is not among them. *)
Theorem collate_5_and_8
    (tok : PreTrainedTokenizer) (x1 x2 : instance (list Z))
    (H1 : length (input_ids x1) = 5) (H2 : length (input_ids x2) = 8)
    (T1 : tokenized_example x1) (T2 : tokenized_example x2) :
  ∃ b row,
    naive__call__ tok [x1; x2] = Some b ∧
    Tensor.has_shape (batch_input_ids b) 2 8 ∧
    Tensor.has_shape (batch_labels b) 2 8 ∧
    batch_attention_mask b !! 0 = Some row ∧
    Tensor.sum1 row = Tensor.sum1 (Tensor.ne1 (input_ids x1) (pad_token_id tok)) ∧
    (pad_token_id tok ∉ input_ids x1 → Tensor.sum1 row = 5).
Proof.
  unfold tokenized_example in T1, T2.
  unfold naive__call__. rewrite pad_batch_Some by done. cbv zeta.
  assert (max_list_with length (input_ids <$> [x1; x2]) = 8) as ->
    by (cbn; rewrite H1, H2; done).
  assert (max_list_with length (labels <$> [x1; x2]) = 8) as ->
    by (cbn; rewrite <-T1, <-T2, H1, H2; done).
  eexists _, (Tensor.ne1 (input_ids x1 ++ replicate (8 - length (input_ids x1))
                                                    (pad_token_id tok))
                         (pad_token_id tok)).
  split; [reflexivity|].
  cbn [batch_input_ids batch_labels batch_attention_mask].
  split_and!.
  - split; [done|]. repeat constructor;
      rewrite length_app, length_replicate; lia.
  - split; [done|]. repeat constructor;
      rewrite length_app, length_replicate; lia.
  - reflexivity.
  - apply sum1_mask_padded_row.
  - intros Hpad. rewrite sum1_mask_padded_row, sum1_ne1_absent by done. done.
Qed.

Lemma collate_5_and_8_witness :
  ∃ b row,
    naive__call__ Fixture.char_tokenizer
      [dict [1; 2; 3; 4; 5]%Z [-100; -100; 3; 4; 5]%Z;
       dict [1; 2; 3; 4; 5; 6; 7; 8]%Z [-100; 2; 3; 4; 5; 6; 7; 8]%Z] = Some b ∧
    Tensor.has_shape (batch_input_ids b) 2 8 ∧
    Tensor.has_shape (batch_labels b) 2 8 ∧
    batch_attention_mask b !! 0 = Some row ∧
    Tensor.sum1 row = 5.
Proof.
  destruct (collate_5_and_8 Fixture.char_tokenizer
              (dict [1; 2; 3; 4; 5]%Z [-100; -100; 3; 4; 5]%Z)
              (dict [1; 2; 3; 4; 5; 6; 7; 8]%Z [-100; 2; 3; 4; 5; 6; 7; 8]%Z)
              eq_refl eq_refl eq_refl eq_refl)
    as (b & row & Hb & Hids & Hlabels & Hrow & _ & H5).
  exists b, row. repeat split; try assumption; try apply Hids; try apply Hlabels.
  apply H5. cbn. intros Hin. repeat (apply elem_of_cons in Hin as [Hin|Hin]; [discriminate|]).
  by apply elem_of_nil in Hin.
Defined.

(** C9 as stated fails: an example of 5 ids that contains the pad id (as
    when the tokenizer pads with a token that also occurs in text) has
    fewer than 5 [true] in its mask row. *)
Lemma pad_id_inside_example_is_masked :
  let x1 := dict [0; 1; 2; 3; 4]%Z [0; 1; 2; 3; 4]%Z in
  let x2 := dict [1; 2; 3; 4; 5; 6; 7; 8]%Z [1; 2; 3; 4; 5; 6; 7; 8]%Z in
  length (input_ids x1) = 5 ∧ length (input_ids x2) = 8 ∧
  tokenized_example x1 ∧ tokenized_example x2 ∧
  ∃ b row,
    naive__call__ Fixture.char_tokenizer [x1; x2] = Some b ∧
    batch_attention_mask b !! 0 = Some row ∧
    Tensor.sum1 row = 4 ∧ Tensor.sum1 row ≠ 5.
Proof.
  cbv zeta. split_and!; try reflexivity.
  do 2 eexists. split_and!; try reflexivity. vm_compute. lia.
Qed.

(** ** The loader *)

Section ResultFacts.

Context {A B : Type}.
Implicit Types (f : A → result B) (l : list A) (k : list B).

Lemma mapM_result_cons f x l :
  mapM f (x :: l) = y ← f x; k ← mapM f l; mret (y :: k).
Proof. done. Qed.

Lemma mapM_result_Ok f l k :
  Forall2 (λ x y, f x = Ok y) l k → mapM f l = Ok k.
Proof.
  induction 1 as [|x y l k Hx _ IH]; [done|].
  rewrite mapM_result_cons, Hx. cbn. rewrite IH. done.
Qed.

Lemma mapM_result_total f (g : A → B) l :
  Forall (λ x, f x = Ok (g x)) l → mapM f l = Ok (g <$> l).
Proof.
  intros Hall. apply mapM_result_Ok.
  induction Hall; constructor; done.
Qed.

End ResultFacts.

Lemma string_app_nil_r (s : string) : s +:+ EmptyString = s.
Proof.
  induction s as [|c s IH]; [done|].
  change (String c s +:+ EmptyString) with (String c (s +:+ EmptyString)).
  by rewrite IH.
Qed.

Lemma slice_to_take {A} (l : list A) (n : Z) :
  (0 ≤ n)%Z → slice_to l n = take (Z.to_nat n) l.
Proof. intros Hn. unfold slice_to. by rewrite (proj2 (Z.leb_le 0 n)). Qed.

Lemma slice_to_0 {A} (l : list A) : slice_to l 0 = [].
Proof. done. Qed.

Lemma slice_to_nil {A} (n : Z) : slice_to (@nil A) n = [].
Proof. unfold slice_to. destruct (0 <=? n)%Z; by rewrite take_nil. Qed.

Lemma Forall_slice_to {A} (P : A → Prop) (l : list A) (n : Z) :
  Forall P l → Forall P (slice_to l n).
Proof. intros Hl. unfold slice_to. destruct (0 <=? n)%Z; by apply Forall_take. Qed.

Section LoaderFacts.

Context {rng : Type}.
Variable py : Python rng.
Variable tok : PreTrainedTokenizer.

(** Reading line by line fails with the decoder's error, or not at all. *)
Lemma mapM_jload_lines (lines : list string) :
  mapM (λ line, jload py (str_strip py line)) lines
  = match mapM (λ line, json_loads py (str_strip py line)) lines with
    | Some values => Ok values
    | None => Raise JSONDecodeError
    end.
Proof.
  induction lines as [|line lines IH]; [done|].
  rewrite mapM_result_cons, IH. unfold jload.
  change (mapM (λ line, json_loads py (str_strip py line)) (line :: lines))
    with (y ← json_loads py (str_strip py line);
          k ← mapM (λ line, json_loads py (str_strip py line)) lines;
          mret (y :: k)).
  destruct (json_loads py (str_strip py line)) as [v|]; [|done].
  cbn. by destruct (@mapM option _ _ _ _ _ lines).
Qed.

Lemma parse_file_eq (text : string) :
  parse_file py text
  = match json_loads py text with
    | Some doc => Ok doc
    | None =>
        match mapM (λ line, json_loads py (str_strip py line)) (readlines text) with
        | Some values => Ok (JArr values)
        | None => Raise JSONDecodeError
        end
    end.
Proof.
  unfold parse_file, try_except, jload at 1.
  destruct (json_loads py text) as [doc|]; [done|].
  rewrite mapM_jload_lines. by destruct (@mapM option _ _ _ _ _ (readlines text)).
Qed.

Lemma load_records_array text l n g :
  parse_file py text = Ok (JArr l) →
  load_records py text n g
  = (Ok (slice_to (random_sample py g l).1 n), (random_sample py g l).2).
Proof.
  intros Hparse. unfold load_records. rewrite Hparse. cbn.
  by destruct (random_sample py g l).
Qed.

Lemma init_eq text n g :
  __init__ py tok text n g
  = (records ← loaded_records py text n g; render py tok records,
     (load_records py text n g).2).
Proof.
  unfold __init__, loaded_records.
  destruct (load_records py text n g) as [[l|e] g']; [|done].
  cbn. by destruct (normalize l).
Qed.

Lemma init_parse_error text n g e :
  parse_file py text = Raise e → __init__ py tok text n g = (Raise e, g).
Proof. intros Hparse. unfold __init__, load_records. by rewrite Hparse. Qed.

Lemma format_map_prompt_input m i :
  m !! "instruction" = Some i →
  format_map py prompt_input (JObj m)
  = Ok (("<|user|>:" +:+ nl) +:+ str py i +:+
        (nl +:+ "<|assistant|>: Let's think step by step and solve the problem with code.")).
Proof.
  intros Hi. unfold prompt_input. cbn. rewrite Hi. cbn.
  by rewrite string_app_nil_r.
Qed.

Lemma render_source_record r i o :
  record_of r i o → render_source py r = Ok (prompt_text py i).
Proof.
  intros (m & -> & Hi & _). unfold render_source. cbn. rewrite Hi. cbn.
  unfold prompt_text.
  destruct i as [| | |[|c s]| |]; try done; by apply format_map_prompt_input.
Qed.

Lemma render_target_record r i o :
  record_of r i o → render_target py tok r = Ok (str py o +:+ eos_token tok).
Proof.
  intros (m & -> & _ & Ho). unfold render_target. cbn. by rewrite Ho.
Qed.

Lemma render_records (records : list json) (ios : list (json * json)) :
  Forall2 (λ r io, record_of r io.1 io.2) records ios →
  render py tok records
  = Ok {| sources := (λ io, prompt_text py io.1) <$> ios;
          targets := (λ io, str py io.2 +:+ eos_token tok) <$> ios |}.
Proof.
  intros Hrec. unfold render.
  rewrite (mapM_result_Ok (format_map py prompt_input) records
             ((λ io, ("<|user|>:" +:+ nl) +:+ str py io.1 +:+
                     (nl +:+ "<|assistant|>: Let's think step by step and solve the problem with code."))
                <$> ios)).
  2:{ apply Forall2_fmap_r. eapply Forall2_impl; [exact Hrec|].
      intros r io (m & -> & Hi & _). by apply format_map_prompt_input. }
  cbn.
  rewrite (mapM_result_Ok (render_source py) records
             ((λ io, prompt_text py io.1) <$> ios)).
  2:{ apply Forall2_fmap_r. eapply Forall2_impl; [exact Hrec|].
      intros r io Hr. exact (render_source_record r io.1 io.2 Hr). }
  cbn.
  rewrite (mapM_result_Ok (render_target py tok) records
             ((λ io, str py io.2 +:+ eos_token tok) <$> ios)).
  2:{ apply Forall2_fmap_r. eapply Forall2_impl; [exact Hrec|].
      intros r io Hr. exact (render_target_record r io.1 io.2 Hr). }
  done.
Qed.

Lemma rename_alternate r q s :
  alternate_record r q s → rename r = Ok (renamed q s).
Proof.
  intros (m & -> & _ & Hq & Hs). unfold rename. cbn. rewrite Hq. cbn.
  by rewrite Hs.
Qed.

Lemma record_of_renamed q s : record_of (renamed q s) q s.
Proof.
  eexists. split; [reflexivity|]. split.
  - by rewrite lookup_insert_eq.
  - rewrite lookup_insert_ne by done. by rewrite lookup_insert_eq.
Qed.

Lemma normalize_alternate (records : list json) :
  records ≠ [] →
  Forall (λ r, ∃ q s, alternate_record r q s) records →
  ∃ records',
    normalize records = Ok records' ∧
    Forall2 (λ r r', ∃ q s, alternate_record r q s ∧ r' = renamed q s ∧ record_of r' q s)
      records records'.
Proof.
  intros Hne Hall.
  assert (∃ records', Forall2 (λ r r', ∃ q s, alternate_record r q s ∧
                                 r' = renamed q s ∧ record_of r' q s)
                        records records') as [records' Hren].
  { clear Hne. induction Hall as [|r records (q & s & Hr) _ [records' IH]].
    - by exists [].
    - exists (renamed q s :: records'). constructor; [|done].
      exists q, s. split_and!; [done..|apply record_of_renamed]. }
  exists records'. split; [|done].
  destruct records as [|first rest]; [done|].
  apply Forall_cons in Hall as [(q & s & m & -> & Hi & _) _].
  assert (normalize (JObj m :: rest) = mapM rename (JObj m :: rest)) as ->.
  { unfold normalize, contains. by rewrite Hi. }
  apply mapM_result_Ok. eapply Forall2_impl; [exact Hren|].
  intros r r' (q' & s' & Hr & -> & _). by apply rename_alternate.
Qed.

End LoaderFacts.

(** The stand-ins obey the laws. *)
Lemma fixture_python_laws : PythonLaws Fixture.python.
Proof.
  split; [done|]. intros g l. cbn. unfold rotate.
  rewrite Permutation_app_comm. by rewrite take_drop.
Qed.

(** C4.  When the constructor succeeds on records with an instruction and an
    output, the source of each record is [prompt_text] of its instruction
    and the target is its printed output followed by the tokenizer's
    end-of-sequence marker: the source is empty for the empty instruction;
    for any other instruction string it is the one template with the
    instruction in place of the field, hence non-empty and containing the
    instruction verbatim; and for an output string the target is that
    string followed by the marker. *)
Theorem init_renders_every_record
    {rng : Type} (py : Python rng) (laws : PythonLaws py) (tok : PreTrainedTokenizer)
    (text : string) (n : Z) (g : rng) (records : list json) (ios : list (json * json))
    (Hload : loaded_records py text n g = Ok records)
    (Hrec : Forall2 (λ r io, record_of r io.1 io.2) records ios) :
  (__init__ py tok text n g).1
  = Ok {| sources := (λ io, prompt_text py io.1) <$> ios;
          targets := (λ io, str py io.2 +:+ eos_token tok) <$> ios |}
  ∧ prompt_text py (JStr EmptyString) = EmptyString
  ∧ (∀ s, s ≠ EmptyString →
       prompt_text py (JStr s)
       = ("<|user|>:" +:+ nl) +:+ s +:+
         (nl +:+ "<|assistant|>: Let's think step by step and solve the problem with code.")
       ∧ prompt_text py (JStr s) ≠ EmptyString)
  ∧ (∀ o, str py (JStr o) +:+ eos_token tok = o +:+ eos_token tok).
Proof.
  split_and!.
  - rewrite init_eq. cbn [fst]. rewrite Hload. cbn. by apply render_records.
  - done.
  - intros s Hs. unfold prompt_text. rewrite str_of_str.
    destruct s as [|c s]; [done|]. split; [done|]. intros H. discriminate H.
  - intros o. by rewrite str_of_str.
Qed.

Lemma init_renders_every_record_witness :
  (__init__ Fixture.python Fixture.char_tokenizer Fixture.two_line_file 10 0).1
  = Ok {| sources :=
            [ ("<|user|>:" +:+ nl) +:+ "Add 1 and 2." +:+
              (nl +:+ "<|assistant|>: Let's think step by step and solve the problem with code.");
              EmptyString ];
          targets := ["3</s>"; "x</s>"] |}.
Proof.
  apply (init_renders_every_record Fixture.python fixture_python_laws
           Fixture.char_tokenizer Fixture.two_line_file 10 0
           [Fixture.add_1_2; Fixture.no_prompt]
           [(JStr "Add 1 and 2.", JStr "3"); (JStr EmptyString, JStr "x")]).
  - reflexivity.
  - repeat constructor; eexists; repeat split; reflexivity.
Defined.

(** C5, as the code has it.  When every record of the file has the keys
    [query] and [response] and no key [instruction], each retained record
    is replaced at load time by a dictionary whose [instruction] is the
    record's query and whose [output] is the record's response, whatever
    these values are. *)
Theorem alternate_records_are_renamed
    {rng : Type} (py : Python rng) (laws : PythonLaws py)
    (text : string) (l : list json) (n : Z) (g : rng)
    (Hparse : parse_file py text = Ok (JArr l))
    (Halt : Forall (λ r, ∃ q s, alternate_record r q s) l)
    (Hne : slice_to (random_sample py g l).1 n ≠ []) :
  ∃ records,
    loaded_records py text n g = Ok records ∧
    Forall2 (λ r r', ∃ q s, alternate_record r q s ∧ r' = renamed q s ∧ record_of r' q s)
      (slice_to (random_sample py g l).1 n) records.
Proof.
  unfold loaded_records. rewrite (load_records_array py text l n g Hparse). cbn.
  apply normalize_alternate; [done|].
  apply Forall_slice_to. by rewrite random_sample_perm.
Qed.

Lemma alternate_records_are_renamed_witness :
  ∃ records,
    loaded_records Fixture.python Fixture.alternate_file 5 0 = Ok records ∧
    Forall2 (λ r r', ∃ q s, alternate_record r q s ∧ r' = renamed q s ∧ record_of r' q s)
      [Fixture.say_hi] records.
Proof.
  apply (alternate_records_are_renamed Fixture.python fixture_python_laws
           Fixture.alternate_file [Fixture.say_hi] 5 0).
  - reflexivity.
  - repeat constructor. exists (JStr "Say hi."), (JStr "hi").
    eexists; repeat split; reflexivity.
  - discriminate.
Defined.

(** C5 as stated fails: a record of the alternate schema whose response is
    [null] is loaded with a null output, and the dataset is built from it. *)
Lemma null_response_gives_null_output :
  parse_file Fixture.python Fixture.null_response_file = Ok (JArr [Fixture.q_null]) ∧
  alternate_record Fixture.q_null (JStr "q") JNull ∧
  loaded_records Fixture.python Fixture.null_response_file 5 0
    = Ok [renamed (JStr "q") JNull] ∧
  record_of (renamed (JStr "q") JNull) (JStr "q") JNull ∧
  (__init__ Fixture.python Fixture.char_tokenizer Fixture.null_response_file 5 0).1
    = Ok {| sources :=
              [ ("<|user|>:" +:+ nl) +:+ "q" +:+
                (nl +:+ "<|assistant|>: Let's think step by step and solve the problem with code.") ];
            targets := ["None</s>"] |}.
Proof.
  split_and!; try reflexivity.
  - eexists; repeat split; reflexivity.
  - eexists; repeat split; reflexivity.
Qed.

(** C6, as the code has it.  The text of the file is first decoded as one
    JSON document, of any kind; only when that raises is every line decoded
    on its own, stripped, as one JSON value; and when a line is refused the
    constructor ends in the decoder's error with no dataset, the values
    decoded before the bad line are dropped and the generator is not
    touched. *)
Theorem parse_file_document_then_lines
    {rng : Type} (py : Python rng) (tok : PreTrainedTokenizer)
    (text : string) (n : Z) (g : rng) :
  parse_file py text
  = match json_loads py text with
    | Some doc => Ok doc
    | None =>
        match mapM (λ line, json_loads py (str_strip py line)) (readlines text) with
        | Some values => Ok (JArr values)
        | None => Raise JSONDecodeError
        end
    end
  ∧ (json_loads py text = None →
     mapM (λ line, json_loads py (str_strip py line)) (readlines text) = None →
     __init__ py tok text n g = (Raise JSONDecodeError, g)).
Proof.
  split; [apply parse_file_eq|].
  intros Hdoc Hlines. apply init_parse_error.
  by rewrite parse_file_eq, Hdoc, Hlines.
Qed.

Lemma parse_file_document_then_lines_witness :
  parse_file Fixture.python Fixture.array_file
    = Ok (JArr [Fixture.add_1_2; Fixture.no_prompt]) ∧
  parse_file Fixture.python Fixture.two_line_file
    = Ok (JArr [Fixture.add_1_2; Fixture.no_prompt]) ∧
  __init__ Fixture.python Fixture.char_tokenizer Fixture.broken_file 10 7
    = (Raise JSONDecodeError, 7).
Proof.
  split_and!.
  - exact (proj1 (parse_file_document_then_lines Fixture.python Fixture.char_tokenizer
                    Fixture.array_file 10 7)).
  - exact (proj1 (parse_file_document_then_lines Fixture.python Fixture.char_tokenizer
                    Fixture.two_line_file 10 7)).
  - apply (proj2 (parse_file_document_then_lines Fixture.python Fixture.char_tokenizer
                    Fixture.broken_file 10 7)); reflexivity.
Defined.

(** C6 as stated fails: a file of one line holding one JSON object is no
    JSON array and is a well-formed newline-delimited file of one record,
    yet it is not read line by line: the document decodes to a dictionary
    and the constructor ends in a [TypeError], not in a dataset and not in
    a parse error. *)
Lemma one_object_file_is_not_read_as_lines :
  parse_array_then_lines Fixture.python Fixture.one_object_file = Ok [Fixture.add_1_2] ∧
  parse_file Fixture.python Fixture.one_object_file = Ok Fixture.add_1_2 ∧
  parse_file Fixture.python Fixture.one_object_file
    ≠ JArr <$> parse_array_then_lines Fixture.python Fixture.one_object_file ∧
  __init__ Fixture.python Fixture.char_tokenizer Fixture.one_object_file 10 0
    = (Raise TypeError, 0).
Proof.
  split_and!; try reflexivity.
  vm_compute. discriminate.
Qed.

(** C7.  After a successful parse to a list of records, the records kept are
    [shuffled[:data_length]] of the sample [random.sample] draws over all
    parsed records, a rearrangement of them fixed by the generator state:
    for a cap that is not negative these are the first [data_length]
    elements.  Two loads of the same text with the same cap, each begun in
    the state [random.seed(seed)] leaves, keep the same records in the same
    order and build the same dataset. *)
Theorem load_records_shuffle_then_truncate
    {rng : Type} (py : Python rng) (laws : PythonLaws py) (tok : PreTrainedTokenizer)
    (text : string) (l : list json) (n seed : Z) (g1 g2 : rng)
    (Hparse : parse_file py text = Ok (JArr l))
    (Hg1 : g1 = random_seed py seed) (Hg2 : g2 = random_seed py seed) :
  let shuffled := (random_sample py (random_seed py seed) l).1 in
  shuffled ≡ₚ l ∧
  (load_records py text n g1).1 = Ok (slice_to shuffled n) ∧
  ((0 ≤ n)%Z → slice_to shuffled n = take (Z.to_nat n) shuffled) ∧
  (load_records py text n g2).1 = (load_records py text n g1).1 ∧
  __init__ py tok text n g2 = __init__ py tok text n g1.
Proof.
  intros shuffled. subst g1 g2. split_and!; try done.
  - apply random_sample_perm.
  - by rewrite (load_records_array py text l n _ Hparse).
  - apply slice_to_take.
Qed.

Lemma load_records_shuffle_then_truncate_witness :
  (load_records Fixture.python Fixture.array_file 1 1).1 = Ok [Fixture.no_prompt].
Proof.
  apply (load_records_shuffle_then_truncate Fixture.python fixture_python_laws
           Fixture.char_tokenizer Fixture.array_file
           [Fixture.add_1_2; Fixture.no_prompt] 1 1 1 1);
    reflexivity.
Defined.

(** C10.  When the file parses to an empty list of records, or the file
    parses to a list of records and the cap is 0, the constructor ends in
    an [IndexError]: the truncated list is empty and its first record is
    inspected regardless. *)
Theorem init_without_records_raises_IndexError
    {rng : Type} (py : Python rng) (laws : PythonLaws py) (tok : PreTrainedTokenizer)
    (text : string) (l : list json) (n : Z) (g : rng)
    (Hparse : parse_file py text = Ok (JArr l))
    (Hnone : l = [] ∨ n = 0%Z) :
  (__init__ py tok text n g).1 = Raise IndexError.
Proof.
  rewrite init_eq. cbn [fst]. unfold loaded_records.
  rewrite (load_records_array py text l n g Hparse). cbn [fst].
  assert (slice_to (random_sample py g l).1 n = []) as ->; [|done].
  destruct Hnone as [->| ->]; [|apply slice_to_0].
  pose proof (random_sample_perm g []) as Hperm.
  apply Permutation_nil_r in Hperm. rewrite Hperm. apply slice_to_nil.
Qed.

Lemma init_without_records_raises_IndexError_witness :
  (__init__ Fixture.python Fixture.char_tokenizer Fixture.empty_array_file 5 0).1
    = Raise IndexError ∧
  (__init__ Fixture.python Fixture.char_tokenizer EmptyString 5 0).1
    = Raise IndexError ∧
  (__init__ Fixture.python Fixture.char_tokenizer Fixture.array_file 0 0).1
    = Raise IndexError.
Proof.
  split_and!.
  - apply (init_without_records_raises_IndexError Fixture.python fixture_python_laws
             Fixture.char_tokenizer Fixture.empty_array_file [] 5 0);
      [reflexivity | by left].
  - apply (init_without_records_raises_IndexError Fixture.python fixture_python_laws
             Fixture.char_tokenizer EmptyString [] 5 0);
      [reflexivity | by left].
  - apply (init_without_records_raises_IndexError Fixture.python fixture_python_laws
             Fixture.char_tokenizer Fixture.array_file
             [Fixture.add_1_2; Fixture.no_prompt] 0 0);
      [reflexivity | by right].
Defined.

(** ** Further properties of the preprocessor and the collators *)

Section MaskFacts.

Implicit Types (t : list Z) (n : nat).

Lemma fill_prefix_all n v t :
  length t ≤ n → Tensor.fill_prefix n v t = replicate (length t) v.
Proof.
  intros Hn. unfold Tensor.fill_prefix.
  rewrite drop_ge by done. rewrite app_nil_r. f_equal. lia.
Qed.

Lemma fill_prefix_0 v t : Tensor.fill_prefix 0 v t = t.
Proof. done. Qed.

(** A masked row holds, position by position, the ignore value or the id. *)
Lemma fill_prefix_ignore_or_id n t :
  Forall2 (λ x y, y = IGNORE_INDEX ∨ y = x) t (Tensor.fill_prefix n IGNORE_INDEX t).
Proof.
  unfold Tensor.fill_prefix. rewrite <-(take_drop n t) at 1.
  apply Forall2_app.
  - assert (n `min` length t = length (take n t)) as -> by (by rewrite length_take).
    generalize (take n t). intros l. induction l; constructor; auto.
  - generalize (drop n t). intros l. induction l; constructor; auto.
Qed.

Lemma mask_labels_ignore_or_id (ids : list (list Z)) (lens : list nat) :
  Forall2 (λ row lrow, Forall2 (λ x y, y = IGNORE_INDEX ∨ y = x) row lrow)
    ids (mask_labels ids lens).
Proof.
  revert lens. induction ids as [|row ids IH]; intros lens; [constructor|].
  destruct lens as [|n lens]; simpl.
  - clear IH. constructor.
    + induction row; constructor; auto.
    + induction ids as [|r ids IH]; constructor; [|done].
      induction r; constructor; auto.
  - constructor; [apply fill_prefix_ignore_or_id | apply IH].
Qed.

Lemma mask_labels_lengths (ids : list (list Z)) (lens : list nat) :
  length <$> mask_labels ids lens = length <$> ids.
Proof.
  revert lens. induction ids as [|row ids IH]; intros [|n lens]; csimpl; try done.
  by rewrite length_fill_prefix, IH.
Qed.

End MaskFacts.

Section LazyCollatorFacts.

Variable tok : PreTrainedTokenizer.

Lemma max_list_with_length_fmap (l : list (list Z)) :
  max_list_with length l = max_list (length <$> l).
Proof. by rewrite max_list_with_fmap. Qed.

(** The lazy collator, spelled out on a non-empty batch. *)
Lemma call_Some (items : list (instance string)) :
  items ≠ [] →
  let texts := zip_with String.append (input_ids <$> items) (labels <$> items) in
  let ids := encode tok <$> texts in
  let lens := (λ item, Tensor.sum1 (Tensor.ne1 (encode tok (input_ids item))
                                                (pad_token_id tok))) <$> items in
  let w := max_list_with length ids in
  __call__ tok items =
  Some {| batch_input_ids := (λ s, s ++ replicate (w - length s) (pad_token_id tok)) <$> ids;
          batch_labels :=
            (λ s, s ++ replicate (w - length s) IGNORE_INDEX) <$> mask_labels ids lens;
          batch_attention_mask :=
            Tensor.ne ((λ s, s ++ replicate (w - length s) (pad_token_id tok)) <$> ids)
                      (pad_token_id tok) |}.
Proof.
  intros Hne texts ids lens w.
  assert (ids ≠ []) as Hids.
  { unfold ids, texts. destruct items; [done|]. discriminate. }
  unfold __call__, preprocess, _tokenize_fn. cbn [input_ids labels tk_input_ids tk_input_ids_lens].
  rewrite <-!list_fmap_compose. fold texts. fold ids.
  change ((λ t, Tensor.sum1 (Tensor.ne1 t (pad_token_id tok))) ∘ encode tok ∘ input_ids)
    with (λ item : instance string,
            Tensor.sum1 (Tensor.ne1 (encode tok (input_ids item)) (pad_token_id tok))).
  fold lens.
  rewrite pad_batch_Some; [|done|].
  2:{ intros Hnil. apply (f_equal length) in Hnil.
      rewrite length_mask_labels in Hnil. by destruct ids. }
  cbv zeta.
  rewrite (max_list_with_length_fmap (mask_labels ids lens)), mask_labels_lengths,
    <-max_list_with_length_fmap.
  done.
Qed.

Lemma lookup_texts (items : list (instance string)) k item :
  items !! k = Some item →
  zip_with String.append (input_ids <$> items) (labels <$> items) !! k
  = Some (input_ids item +:+ labels item).
Proof.
  intros Hk. by rewrite lookup_zip_with, !list_lookup_fmap, Hk.
Qed.

End LazyCollatorFacts.

Lemma mask_labels_take (ids : list (list Z)) (lens : list nat) n :
  length ids ≤ n → mask_labels ids (take n lens) = mask_labels ids lens.
Proof.
  revert lens n. induction ids as [|row ids IH]; intros [|m lens] [|n] Hn;
    simpl in *; try done; try lia.
  f_equal. apply IH. lia.
Qed.

(** X1.  [preprocess] pairs sources and targets position by position and
    stops at the shorter list: it returns that many examples, and the
    entries of the longer list past that point have no influence on the
    result. *)
Theorem preprocess_ignores_unpaired_entries
    (tok : PreTrainedTokenizer) (sources targets : list string) :
  let m := length sources `min` length targets in
  length (input_ids (preprocess tok sources targets)) = m ∧
  length (labels (preprocess tok sources targets)) = m ∧
  preprocess tok sources targets = preprocess tok (take m sources) (take m targets).
Proof.
  intros m. destruct (length_preprocess tok sources targets) as [Hi Hl].
  split; [done|]. split; [done|].
  unfold preprocess, _tokenize_fn.
  cbn [tk_input_ids tk_input_ids_lens].
  assert (zip_with String.append (take m sources) (take m targets)
          = zip_with String.append sources targets) as ->.
  { rewrite <-zip_with_take. apply take_ge.
    rewrite length_zip_with. unfold m. lia. }
  f_equal. rewrite !fmap_take. symmetry. apply mask_labels_take.
  rewrite length_fmap, length_zip_with. unfold m. lia.
Qed.

(** X2.  When the source alone already tokenizes to at least as many
    non-pad ids as the whole example has ids (the prompt fills the
    truncated example), every label of the example is [IGNORE_INDEX]. *)
Theorem prompt_filling_the_example_masks_every_label
    (tok : PreTrainedTokenizer) (sources targets : list string) (k : nat)
    (source target : string)
    (Hs : sources !! k = Some source) (Ht : targets !! k = Some target)
    (Hfill : length (encode tok (source +:+ target))
             ≤ Tensor.sum1 (Tensor.ne1 (encode tok source) (pad_token_id tok))) :
  labels (preprocess tok sources targets) !! k
  = Some (replicate (length (encode tok (source +:+ target))) IGNORE_INDEX).
Proof.
  rewrite (lookup_preprocess_labels tok sources targets k source target Hs Ht).
  f_equal. by apply fill_prefix_all.
Qed.

Lemma prompt_filling_the_example_masks_every_label_witness :
  labels (preprocess (Cases.truncating_tokenizer 3) ["abcd"] ["e"]) !! 0
  = Some [-100; -100; -100]%Z.
Proof.
  apply (prompt_filling_the_example_masks_every_label (Cases.truncating_tokenizer 3)
           ["abcd"] ["e"] 0 "abcd" "e" eq_refl eq_refl).
  vm_compute. lia.
Defined.

(** X3.  When the source tokenizes to no non-pad id at all (for instance
    the empty source under a tokenizer that adds no start token), nothing
    is masked: the labels of the example are its ids. *)
Theorem source_without_tokens_masks_nothing
    (tok : PreTrainedTokenizer) (sources targets : list string) (k : nat)
    (source target : string)
    (Hs : sources !! k = Some source) (Ht : targets !! k = Some target)
    (Hzero : Tensor.sum1 (Tensor.ne1 (encode tok source) (pad_token_id tok)) = 0) :
  labels (preprocess tok sources targets) !! k = Some (encode tok (source +:+ target))
  ∧ labels (preprocess tok sources targets) !! k
    = input_ids (preprocess tok sources targets) !! k.
Proof.
  rewrite (lookup_preprocess_labels tok sources targets k source target Hs Ht), Hzero.
  rewrite fill_prefix_0. split; [done|].
  unfold preprocess, _tokenize_fn. cbn [input_ids tk_input_ids].
  by rewrite list_lookup_fmap, lookup_zip_with, Hs, Ht.
Qed.

Lemma source_without_tokens_masks_nothing_witness :
  labels (preprocess Fixture.char_tokenizer [EmptyString] ["hi"]) !! 0
  = Some [104; 105]%Z.
Proof.
  apply (source_without_tokens_masks_nothing Fixture.char_tokenizer
           [EmptyString] ["hi"] 0 EmptyString "hi" eq_refl eq_refl eq_refl).
Defined.

(** X4.  In every batch the lazy collator returns, [input_ids] and [labels]
    have the same shape and every label is [IGNORE_INDEX] or the input id
    at its position; on padding it is [IGNORE_INDEX]. *)
Theorem lazy_batch_labels_are_ignore_or_input
    (tok : PreTrainedTokenizer) (items : list (instance string)) (b : batch)
    (Hb : __call__ tok items = Some b) :
  Forall2 (λ row lrow, Forall2 (λ x y, y = IGNORE_INDEX ∨ y = x) row lrow)
    (batch_input_ids b) (batch_labels b).
Proof.
  assert (items ≠ []) as Hne by (intros ->; discriminate Hb).
  rewrite (call_Some tok items Hne) in Hb. cbv zeta in Hb. injection Hb as <-.
  cbn [batch_input_ids batch_labels].
  apply Forall2_fmap. eapply Forall2_impl; [apply mask_labels_ignore_or_id|].
  intros row lrow Hrow. simpl.
  apply Forall2_app; [done|].
  rewrite <-(Forall2_length _ _ _ Hrow).
  generalize (max_list_with length
                (encode tok <$> zip_with String.append (input_ids <$> items)
                                  (labels <$> items)) - length row).
  intros n. induction n; constructor; auto.
Qed.

Lemma lazy_batch_labels_are_ignore_or_input_witness :
  Forall2 (λ row lrow, Forall2 (λ x y, y = IGNORE_INDEX ∨ y = x) row lrow)
    [[97; 98; 99; 0]; [119; 120; 121; 122]]%Z
    [[-100; -100; 99; -100]; [119; 120; 121; 122]]%Z.
Proof.
  apply (lazy_batch_labels_are_ignore_or_input Fixture.char_tokenizer
           [dict "ab" "c"; dict EmptyString "wxyz"]
           {| batch_input_ids := [[97; 98; 99; 0]; [119; 120; 121; 122]]%Z;
              batch_labels := [[-100; -100; 99; -100]; [119; 120; 121; 122]]%Z;
              batch_attention_mask :=
                [[true; true; true; false]; [true; true; true; true]] |}).
  reflexivity.
Defined.

(** X5.  Either collator returns a batch exactly when it is given at least
    one instance; on the empty batch [pad_sequence] raises. *)
Theorem collators_refuse_only_the_empty_batch (tok : PreTrainedTokenizer) :
  (∀ items, is_Some (__call__ tok items) ↔ items ≠ []) ∧
  (∀ instances, is_Some (naive__call__ tok instances) ↔ instances ≠ []).
Proof.
  split.
  - intros items. split.
    + intros [b Hb] ->. discriminate Hb.
    + intros Hne. rewrite (call_Some tok items Hne). by eexists.
  - intros instances. split.
    + intros [b Hb] ->. discriminate Hb.
    + intros Hne. unfold naive__call__. rewrite pad_batch_Some; [by eexists|..];
        by destruct instances.
Qed.

(** X6.  Row [k] of the [input_ids] of a lazily collated batch is the
    tokenization of source [k] followed by target [k], then pad ids up to
    the width of the batch; its mask row is as long and counts the ids of
    that tokenization other than the pad id. *)
Theorem lazy_batch_row_is_tokenization_then_padding
    (tok : PreTrainedTokenizer) (items : list (instance string)) (b : batch)
    (k : nat) (item : instance string)
    (Hb : __call__ tok items = Some b) (Hk : items !! k = Some item) :
  let ids := encode tok (input_ids item +:+ labels item) in
  ∃ row mrow,
    batch_input_ids b !! k = Some row ∧
    batch_attention_mask b !! k = Some mrow ∧
    row = ids ++ replicate (length row - length ids) (pad_token_id tok) ∧
    length ids ≤ length row ∧
    length mrow = length row ∧
    Tensor.sum1 mrow = Tensor.sum1 (Tensor.ne1 ids (pad_token_id tok)) ∧
    Tensor.sum1 mrow ≤ length ids.
Proof.
  intros ids.
  assert (items ≠ []) as Hne by (intros ->; discriminate Hb).
  rewrite (call_Some tok items Hne) in Hb. cbv zeta in Hb. injection Hb as <-.
  cbn [batch_input_ids batch_attention_mask].
  set (w := max_list_with length _).
  exists (ids ++ replicate (w - length ids) (pad_token_id tok)),
         (Tensor.ne1 (ids ++ replicate (w - length ids) (pad_token_id tok))
                     (pad_token_id tok)).
  assert ((encode tok <$> zip_with String.append (input_ids <$> items)
                            (labels <$> items)) !! k = Some ids) as Hids.
  { by rewrite list_lookup_fmap, (lookup_texts items k item Hk). }
  split_and!.
  - by rewrite list_lookup_fmap, Hids.
  - unfold Tensor.ne. by rewrite 2!list_lookup_fmap, Hids.
  - rewrite length_app, length_replicate. do 2 f_equal. lia.
  - rewrite length_app. lia.
  - unfold Tensor.ne1. by rewrite length_fmap.
  - apply sum1_mask_padded_row.
  - rewrite sum1_mask_padded_row. rewrite sum1_ne1. apply length_filter.
Qed.

Lemma lazy_batch_row_is_tokenization_then_padding_witness :
  ∃ row mrow,
    [[97; 98; 99; 0]; [119; 120; 121; 122]]%Z !! 0 = Some row ∧
    [[true; true; true; false]; [true; true; true; true]] !! 0 = Some mrow ∧
    row = [97; 98; 99]%Z ++ replicate (length row - 3) 0%Z ∧
    3 ≤ length row ∧
    length mrow = length row ∧
    Tensor.sum1 mrow = 3 ∧
    Tensor.sum1 mrow ≤ 3.
Proof.
  apply (lazy_batch_row_is_tokenization_then_padding Fixture.char_tokenizer
           [dict "ab" "c"; dict EmptyString "wxyz"]
           {| batch_input_ids := [[97; 98; 99; 0]; [119; 120; 121; 122]]%Z;
              batch_labels := [[-100; -100; 99; -100]; [119; 120; 121; 122]]%Z;
              batch_attention_mask :=
                [[true; true; true; false]; [true; true; true; true]] |}
           0 (dict "ab" "c")); reflexivity.
Defined.

(** ** Further properties of the loader *)

Section ResultInversion.

Context {A B : Type}.
Implicit Types (f : A → result B) (l : list A) (k : list B).

Lemma mapM_result_inv f l k :
  mapM f l = Ok k → Forall2 (λ x y, f x = Ok y) l k.
Proof.
  revert k. induction l as [|x l IH]; intros k Hk.
  - injection Hk as <-. constructor.
  - rewrite mapM_result_cons in Hk.
    destruct (f x) as [y|e] eqn:Hx; [|discriminate Hk]. cbn in Hk.
    destruct (mapM f l) as [k'|e]; [|discriminate Hk]. cbn in Hk.
    injection Hk as <-. constructor; [done|]. by apply IH.
Qed.

Lemma mapM_result_length f l k : mapM f l = Ok k → length k = length l.
Proof. intros Hk. symmetry. eapply Forall2_length, mapM_result_inv, Hk. Qed.

(** The first element that raises decides the exception. *)
Lemma mapM_result_Raise f l (P : exception → Prop) :
  Forall (λ x, (∃ y, f x = Ok y) ∨ ∃ e, P e ∧ f x = Raise e) l →
  Exists (λ x, ∃ e, f x = Raise e) l →
  ∃ e, P e ∧ mapM f l = Raise e.
Proof.
  induction 1 as [|x l Hx Hall IH]; intros Hex; [by apply Exists_nil in Hex|].
  rewrite mapM_result_cons.
  destruct Hx as [[y Hy]|(e & He & Hx)].
  - rewrite Hy. cbn. apply Exists_cons in Hex as [[e Hx]|Hex]; [congruence|].
    destruct (IH Hex) as (e & He & ->). by exists e.
  - rewrite Hx. by exists e.
Qed.

Lemma mapM_result_take f l k n :
  mapM f l = Ok k → mapM f (take n l) = Ok (take n k).
Proof.
  intros Hk. apply mapM_result_Ok, Forall2_take, mapM_result_inv, Hk.
Qed.

End ResultInversion.

Lemma result_bind_Ok {A B} (x : A) (f : A → result B) : Ok x ≫= f = f x.
Proof. done. Qed.

Lemma length_slice_to {A} (l : list A) (n : Z) :
  length (slice_to l n)
  = if (0 <=? n)%Z then Z.to_nat n `min` length l else length l - Z.to_nat (- n).
Proof.
  unfold slice_to. destruct (0 <=? n)%Z; rewrite length_take; lia.
Qed.

Lemma slice_to_slice_to {A} (l : list A) (n m : Z) :
  (0 ≤ n ≤ m)%Z → slice_to l n = take (Z.to_nat n) (slice_to l m).
Proof.
  intros Hnm. rewrite !slice_to_take by lia. rewrite take_take. f_equal. lia.
Qed.

Section LoaderInversion.

Context {rng : Type}.
Variable py : Python rng.
Hypothesis laws : PythonLaws py.
Variable tok : PreTrainedTokenizer.

Lemma init_fst text n g :
  (__init__ py tok text n g).1
  = (l ← (load_records py text n g).1; l ← normalize l; render py tok l).
Proof. unfold __init__. by destruct (load_records py text n g) as [[l|e] g']. Qed.

Lemma init_snd text n g :
  (__init__ py tok text n g).2 = (load_records py text n g).2.
Proof. unfold __init__. by destruct (load_records py text n g) as [[l|e] g']. Qed.

Lemma load_records_string text s n g :
  parse_file py text = Ok (JStr s) →
  let chars := (λ c, JStr (String c EmptyString)) <$> String.list_ascii_of_string s in
  load_records py text n g
  = (Ok (slice_to (random_sample py g chars).1 n), (random_sample py g chars).2).
Proof.
  intros Hparse chars. unfold load_records. rewrite Hparse. cbn. fold chars.
  by destruct (random_sample py g chars).
Qed.

Lemma load_records_not_a_sequence text doc n g :
  parse_file py text = Ok doc →
  (∀ l, doc ≠ JArr l) → (∀ s, doc ≠ JStr s) →
  load_records py text n g = (Raise TypeError, g).
Proof.
  intros Hparse Harr Hstr. unfold load_records. rewrite Hparse.
  destruct doc; try done; [by destruct (Hstr s) | by destruct (Harr l)].
Qed.

(** No character of a string holds the key. *)
Lemma contains_instruction_char c :
  contains "instruction" (JStr (String c EmptyString)) = Ok false.
Proof.
  destruct c as [[] [] [] [] [] [] [] []]; reflexivity.
Qed.

Lemma normalize_chars (retained : list json) :
  Forall (λ v, ∃ c, v = JStr (String c EmptyString)) retained →
  normalize retained = Raise IndexError ∨ normalize retained = Raise TypeError.
Proof.
  intros Hall. destruct Hall as [|v rest [c ->] _]; [by left|]. right.
  assert (normalize (JStr (String c EmptyString) :: rest)
          = mapM rename (JStr (String c EmptyString) :: rest)) as ->.
  { unfold normalize. by rewrite contains_instruction_char. }
  by rewrite mapM_result_cons.
Qed.

Lemma init_string_document text s n g :
  parse_file py text = Ok (JStr s) →
  (__init__ py tok text n g).1 = Raise IndexError ∨
  (__init__ py tok text n g).1 = Raise TypeError.
Proof.
  intros Hparse. rewrite init_fst, (load_records_string text s n g Hparse).
  cbn [fst]. cbn.
  set (retained := slice_to _ n).
  assert (Forall (λ v, ∃ c, v = JStr (String c EmptyString)) retained) as Hall.
  { apply Forall_slice_to. rewrite random_sample_perm.
    apply Forall_fmap, Forall_true. intros c. by exists c. }
  destruct (normalize_chars retained Hall) as [-> | ->]; [by left|by right].
Qed.

(** A dataset is built only from an array. *)
Lemma init_Ok_inv text n g ds :
  (__init__ py tok text n g).1 = Ok ds →
  ∃ l records,
    parse_file py text = Ok (JArr l) ∧
    normalize (slice_to (random_sample py g l).1 n) = Ok records ∧
    render py tok records = Ok ds.
Proof.
  intros Hds.
  destruct (parse_file py text) as [doc|e] eqn:Hparse.
  2:{ rewrite (init_parse_error py tok text n g e Hparse) in Hds. discriminate Hds. }
  destruct doc as [| | |s|l|m].
  1-3,6: rewrite init_fst, (load_records_not_a_sequence text _ n g Hparse) in Hds;
         try done; discriminate Hds.
  - destruct (init_string_document text s n g Hparse) as [H|H];
      rewrite H in Hds; discriminate Hds.
  - rewrite init_fst, (load_records_array py text l n g Hparse) in Hds.
    cbn [fst] in Hds. cbn in Hds.
    destruct (normalize (slice_to (random_sample py g l).1 n)) as [records|e] eqn:Hn;
      [|discriminate Hds].
    by exists l, records.
Qed.

Lemma normalize_Ok_inv (l l' : list json) :
  normalize l = Ok l' → l ≠ [] ∧ length l' = length l.
Proof.
  unfold normalize. destruct l as [|first rest]; [done|].
  destruct (contains "instruction" first) as [[|]|e]; cbn -[mapM]; try done.
  - by intros [= <-].
  - intros Hl'. split; [done|]. by apply mapM_result_length in Hl'.
Qed.

Lemma render_Ok_inv (l : list json) ds :
  render py tok l = Ok ds →
  Forall2 (λ r s, render_source py r = Ok s) l (sources ds) ∧
  Forall2 (λ r t, render_target py tok r = Ok t) l (targets ds).
Proof.
  unfold render.
  destruct (mapM (format_map py prompt_input) l) as [first|e]; [|done]. cbn.
  destruct (mapM (render_source py) l) as [ss|e] eqn:Hs; [|done]. cbn.
  destruct (mapM (render_target py tok) l) as [ts|e] eqn:Ht; [|done]. cbn.
  intros [= <-]. split; by apply mapM_result_inv.
Qed.



Lemma format_map_prompt_input_missing m :
  m !! "instruction" = None →
  format_map py prompt_input (JObj m) = Raise (KeyError "instruction").
Proof. intros Hi. unfold prompt_input. cbn. by rewrite Hi. Qed.

Lemma mapM_result_is_Ok {A B} (f : A → result B) (l : list A) :
  Forall (λ x, ∃ y, f x = Ok y) l → ∃ k, mapM f l = Ok k.
Proof.
  induction 1 as [|x l [y Hy] _ [k IH]]; [by exists []|].
  exists (y :: k). rewrite mapM_result_cons, Hy. cbn. by rewrite IH.
Qed.

Lemma normalize_take (R R' : list json) k :
  normalize R = Ok R' → 0 < k → normalize (take k R) = Ok (take k R').
Proof.
  intros HR Hk. destruct R as [|first rest]; [done|].
  destruct k as [|k]; [lia|].
  unfold normalize in *. cbn [take].
  destruct (contains "instruction" first) as [[|]|e]; cbn -[mapM] in *; try done.
  - by injection HR as <-.
  - by apply (mapM_result_take rename (first :: rest) R' (S k)) in HR.
Qed.

Lemma render_take (R : list json) ds k :
  render py tok R = Ok ds →
  render py tok (take k R)
  = Ok {| sources := take k (sources ds); targets := take k (targets ds) |}.
Proof.
  unfold render.
  destruct (mapM (format_map py prompt_input) R) as [first|e] eqn:Hf; [|done].
  destruct (mapM (render_source py) R) as [ss|e] eqn:Hs; [|done].
  destruct (mapM (render_target py tok) R) as [ts|e] eqn:Ht; [|done].
  rewrite !result_bind_Ok. intros [= <-]. cbn [sources targets].
  rewrite (mapM_result_take _ _ _ k Hf), result_bind_Ok.
  rewrite (mapM_result_take _ _ _ k Hs), result_bind_Ok.
  by rewrite (mapM_result_take _ _ _ k Ht), result_bind_Ok.
Qed.



End LoaderInversion.

Lemma cases_python_laws : PythonLaws Cases.python.
Proof.
  split; [done|]. intros g l. cbn. unfold rotate.
  rewrite Permutation_app_comm. by rewrite take_drop.
Qed.

(** X7.  A dataset is built only from a file that parses to an array, and
    then it has one source and one target per retained record: its length
    is [min(data_length, number of records)] for a cap that is not
    negative, the number of records less [-data_length] for a negative one,
    and never 0. *)
Theorem init_dataset_size
    {rng : Type} (py : Python rng) (laws : PythonLaws py) (tok : PreTrainedTokenizer)
    (text : string) (n : Z) (g : rng) (ds : SupervisedDataset)
    (Hds : (__init__ py tok text n g).1 = Ok ds) :
  ∃ l, parse_file py text = Ok (JArr l) ∧
       length (targets ds) = __len__ ds ∧
       __len__ ds = length (slice_to (random_sample py g l).1 n) ∧
       __len__ ds = (if (0 <=? n)%Z then Z.to_nat n `min` length l
                     else length l - Z.to_nat (- n)) ∧
       0 < __len__ ds.
Proof.
  destruct (init_Ok_inv py laws tok text n g ds Hds) as (l & records & Hparse & Hn & Hr).
  destruct (normalize_Ok_inv _ _ Hn) as [Hne Hlen].
  destruct (render_Ok_inv py tok _ _ Hr) as [Hs Ht].
  apply Forall2_length in Hs, Ht. unfold __len__.
  assert (length (sources ds) = length (slice_to (random_sample py g l).1 n)) as Hsize
    by congruence.
  exists l. split_and!; try congruence.
  - rewrite Hsize, length_slice_to. by rewrite (Permutation_length (random_sample_perm g l)).
  - rewrite Hsize. destruct (slice_to _ n); [done|simpl; lia].
Qed.

Lemma init_dataset_size_witness :
  ∃ l, parse_file Fixture.python Fixture.array_file = Ok (JArr l) ∧
       length ["3</s>"] = 1 ∧
       1 = length (slice_to (random_sample Fixture.python 0 l).1 1) ∧
       1 = (if (0 <=? 1)%Z then Z.to_nat 1 `min` length l else length l - Z.to_nat (- 1)) ∧
       0 < 1.
Proof.
  apply (init_dataset_size Fixture.python fixture_python_laws Fixture.char_tokenizer
           Fixture.array_file 1 0
           {| sources :=
                [ ("<|user|>:" +:+ nl) +:+ "Add 1 and 2." +:+
                  (nl +:+ "<|assistant|>: Let's think step by step and solve the problem with code.") ];
              targets := ["3</s>"] |}).
  reflexivity.
Defined.

(** X8.  On a dataset the constructor built, [__getitem__] returns the
    source and the target at an index below [__len__], always both, and
    raises [IndexError] at every index from [__len__] on. *)
Theorem getitem_succeeds_below_len
    {rng : Type} (py : Python rng) (laws : PythonLaws py) (tok : PreTrainedTokenizer)
    (text : string) (n : Z) (g : rng) (ds : SupervisedDataset) (i : nat)
    (Hds : (__init__ py tok text n g).1 = Ok ds) :
  (i < __len__ ds →
   ∃ source target, sources ds !! i = Some source ∧ targets ds !! i = Some target ∧
                    __getitem__ ds i = Ok (dict source target)) ∧
  (__len__ ds ≤ i → __getitem__ ds i = Raise IndexError).
Proof.
  destruct (init_Ok_inv py laws tok text n g ds Hds) as (l & records & _ & _ & Hr).
  destruct (render_Ok_inv py tok _ _ Hr) as [Hs Ht].
  apply Forall2_length in Hs, Ht. unfold __len__, __getitem__. split.
  - intros Hi.
    destruct (lookup_lt_is_Some_2 (sources ds) i Hi) as [source Hsource].
    destruct (lookup_lt_is_Some_2 (targets ds) i) as [target Htarget]; [lia|].
    exists source, target. by rewrite Hsource, Htarget.
  - intros Hi. by rewrite (lookup_ge_None_2 (sources ds) i Hi).
Qed.

Lemma getitem_succeeds_below_len_witness :
  let ds := {| sources :=
                 [ ("<|user|>:" +:+ nl) +:+ "Add 1 and 2." +:+
                   (nl +:+ "<|assistant|>: Let's think step by step and solve the problem with code.") ];
               targets := ["3</s>"] |} in
  (∃ source target, sources ds !! 0 = Some source ∧ targets ds !! 0 = Some target ∧
                    __getitem__ ds 0 = Ok (dict source target)) ∧
  __getitem__ ds 1 = Raise IndexError.
Proof.
  intros ds.
  destruct (getitem_succeeds_below_len Fixture.python fixture_python_laws
              Fixture.char_tokenizer Fixture.array_file 1 0 ds 0 eq_refl) as [H0 _].
  destruct (getitem_succeeds_below_len Fixture.python fixture_python_laws
              Fixture.char_tokenizer Fixture.array_file 1 0 ds 1 eq_refl) as [_ H1].
  split; [apply H0; cbn; lia | apply H1; cbn; lia].
Defined.

(** X9.  A file whose text decodes to a JSON document that is not an array
    never yields a dataset: the constructor ends in [TypeError] or
    [IndexError]; for a dictionary, a number, a boolean or [null] it is
    [TypeError], raised before the generator draws. *)
Theorem init_non_array_document_raises
    {rng : Type} (py : Python rng) (laws : PythonLaws py) (tok : PreTrainedTokenizer)
    (text : string) (doc : json) (n : Z) (g : rng)
    (Hparse : parse_file py text = Ok doc)
    (Hdoc : ∀ l, doc ≠ JArr l) :
  ((__init__ py tok text n g).1 = Raise TypeError ∨
   (__init__ py tok text n g).1 = Raise IndexError) ∧
  ((∀ s, doc ≠ JStr s) → __init__ py tok text n g = (Raise TypeError, g)).
Proof.
  assert ((∀ s, doc ≠ JStr s) → __init__ py tok text n g = (Raise TypeError, g)) as Hns.
  { intros Hstr. unfold __init__.
    by rewrite (load_records_not_a_sequence py text doc n g Hparse Hdoc Hstr). }
  split; [|done].
  destruct doc as [| | |s|l|m]; try (left; by rewrite Hns).
  destruct (init_string_document py laws tok text s n g Hparse); auto.
Qed.

Lemma init_non_array_document_raises_witness :
  __init__ Cases.python Fixture.char_tokenizer Cases.number_file 3 5 = (Raise TypeError, 5)
  ∧ ((__init__ Cases.python Fixture.char_tokenizer Cases.string_file 3 5).1 = Raise TypeError ∨
     (__init__ Cases.python Fixture.char_tokenizer Cases.string_file 3 5).1 = Raise IndexError).
Proof.
  split.
  - apply (init_non_array_document_raises Cases.python cases_python_laws
             Fixture.char_tokenizer Cases.number_file (JNum "7") 3 5 eq_refl);
      discriminate.
  - apply (init_non_array_document_raises Cases.python cases_python_laws
             Fixture.char_tokenizer Cases.string_file (JStr "ab") 3 5 eq_refl).
    discriminate.
Defined.

Section SchemaFacts.

Context {rng : Type}.
Variable py : Python rng.
Variable tok : PreTrainedTokenizer.

Lemma normalize_with_instruction m0 (rest : list json) :
  is_Some (m0 !! "instruction") →
  normalize (JObj m0 :: rest) = Ok (JObj m0 :: rest).
Proof.
  intros Hi. unfold normalize, contains. by rewrite bool_decide_true.
Qed.

Lemma normalize_without_instruction m0 (rest : list json) :
  m0 !! "instruction" = None →
  normalize (JObj m0 :: rest) = mapM rename (JObj m0 :: rest).
Proof. intros Hi. unfold normalize, contains. by rewrite Hi. Qed.

Lemma rename_dict m :
  (∃ y, rename (JObj m) = Ok y) ∨
  ∃ e, (e = KeyError "query" ∨ e = KeyError "response") ∧ rename (JObj m) = Raise e.
Proof.
  unfold rename. cbn.
  destruct (m !! "query") as [q|]; cbn; [|right; eexists; eauto].
  destruct (m !! "response") as [s|]; cbn; [left|right]; eexists; eauto.
Qed.

Lemma rename_missing m :
  m !! "query" = None ∨ m !! "response" = None → ∃ e, rename (JObj m) = Raise e.
Proof.
  intros Hm. unfold rename. cbn.
  destruct (m !! "query") as [q|]; cbn; [|by eexists].
  destruct Hm as [Hm|Hm]; [done|]. rewrite Hm. by eexists.
Qed.

End SchemaFacts.

(** X10.  The schema is decided by the first retained record alone: when it
    has the key [instruction] and some retained record (a dictionary like
    the others) has not, as a record of the alternate schema, no record is
    renamed and the constructor ends in [KeyError('instruction')]. *)
Theorem mixed_schemas_raise_KeyError_instruction
    {rng : Type} (py : Python rng) (tok : PreTrainedTokenizer)
    (text : string) (n : Z) (g : rng) (m0 : gmap string json) (rest : list json)
    (Hload : (load_records py text n g).1 = Ok (JObj m0 :: rest))
    (Hfirst : is_Some (m0 !! "instruction"))
    (Hdicts : Forall (λ r, ∃ m, r = JObj m) rest)
    (Hother : Exists (λ r, ∃ m, r = JObj m ∧ m !! "instruction" = None) rest) :
  (__init__ py tok text n g).1 = Raise (KeyError "instruction").
Proof.
  rewrite init_fst, Hload, result_bind_Ok.
  rewrite (normalize_with_instruction m0 rest Hfirst), result_bind_Ok.
  destruct (mapM_result_Raise (format_map py prompt_input) (JObj m0 :: rest)
              (λ e, e = KeyError "instruction")) as (e & -> & Hraise).
  - constructor.
    + left. destruct Hfirst as [i Hi]. eexists. by apply format_map_prompt_input.
    + eapply Forall_impl; [exact Hdicts|]. intros r [m ->].
      destruct (m !! "instruction") as [i|] eqn:Hi.
      * left. eexists. by apply format_map_prompt_input.
      * right. eexists. split; [done|]. by apply format_map_prompt_input_missing.
  - right. eapply Exists_impl; [exact Hother|]. intros r (m & -> & Hi).
    eexists. by apply format_map_prompt_input_missing.
  - unfold render. by rewrite Hraise.
Qed.

Lemma mixed_schemas_raise_KeyError_instruction_witness :
  (__init__ Cases.python Fixture.char_tokenizer Cases.mixed_file 5 0).1
  = Raise (KeyError "instruction").
Proof.
  apply (mixed_schemas_raise_KeyError_instruction Cases.python Fixture.char_tokenizer
           Cases.mixed_file 5 0
           (<["instruction" := JStr "Add 1 and 2."]> (<["output" := JStr "3"]> ∅))
           [Fixture.say_hi]).
  - reflexivity.
  - by eexists.
  - repeat constructor. by eexists.
  - constructor. eexists. split; reflexivity.
Defined.

(** X11.  When every retained record is a dictionary with the key
    [instruction] and one of them has no key [output], the constructor
    ends in [KeyError('output')]. *)
Theorem missing_output_raises_KeyError_output
    {rng : Type} (py : Python rng) (tok : PreTrainedTokenizer)
    (text : string) (n : Z) (g : rng) (retained : list json)
    (Hload : (load_records py text n g).1 = Ok retained)
    (Hinstr : Forall (λ r, ∃ m i, r = JObj m ∧ m !! "instruction" = Some i) retained)
    (Hmissing : Exists (λ r, ∃ m, r = JObj m ∧ m !! "output" = None) retained) :
  (__init__ py tok text n g).1 = Raise (KeyError "output").
Proof.
  rewrite init_fst, Hload, result_bind_Ok.
  destruct retained as [|first rest]; [by apply Exists_nil in Hmissing|].
  pose proof Hinstr as Hall.
  apply Forall_cons in Hinstr as [(m0 & i0 & -> & Hi0) _].
  rewrite (normalize_with_instruction m0 rest) by done. rewrite result_bind_Ok.
  unfold render.
  destruct (mapM_result_is_Ok (format_map py prompt_input) (JObj m0 :: rest)) as [x ->].
  { eapply Forall_impl; [exact Hall|]. intros r (m & i & -> & Hi).
    eexists. by apply format_map_prompt_input. }
  destruct (mapM_result_is_Ok (render_source py) (JObj m0 :: rest)) as [ss ->].
  { eapply Forall_impl; [exact Hall|]. intros r (m & i & -> & Hi).
    unfold render_source. cbn. rewrite Hi. cbn.
    pose proof (format_map_prompt_input py m i Hi) as Hfmt.
    destruct i as [| | |[|c s]| |]; rewrite ?Hfmt; by eexists. }
  rewrite !result_bind_Ok.
  destruct (mapM_result_Raise (render_target py tok) (JObj m0 :: rest)
              (λ e, e = KeyError "output")) as (e & -> & ->); [..|done].
  - eapply Forall_impl; [exact Hall|]. intros r (m & i & -> & Hi).
    unfold render_target. cbn. destruct (m !! "output"); cbn; [left|right]; eauto.
  - eapply Exists_impl; [exact Hmissing|]. intros r (m & -> & Ho).
    unfold render_target. cbn. rewrite Ho. by eexists.
Qed.

Lemma missing_output_raises_KeyError_output_witness :
  (__init__ Cases.python Fixture.char_tokenizer Cases.no_output_file 5 0).1
  = Raise (KeyError "output").
Proof.
  apply (missing_output_raises_KeyError_output Cases.python Fixture.char_tokenizer
           Cases.no_output_file 5 0 [Cases.only_instruction]).
  - reflexivity.
  - repeat constructor. do 2 eexists. split; reflexivity.
  - constructor. eexists. split; reflexivity.
Defined.

(** X12.  When the first retained record has no key [instruction], every
    retained record is read as an alternate record; if one of them (a
    dictionary like the others) lacks [query] or [response], the
    constructor ends in [KeyError('query')] or [KeyError('response')]. *)
Theorem alternate_record_missing_key_raises_KeyError
    {rng : Type} (py : Python rng) (tok : PreTrainedTokenizer)
    (text : string) (n : Z) (g : rng) (m0 : gmap string json) (rest : list json)
    (Hload : (load_records py text n g).1 = Ok (JObj m0 :: rest))
    (Hfirst : m0 !! "instruction" = None)
    (Hdicts : Forall (λ r, ∃ m, r = JObj m) rest)
    (Hmissing : Exists (λ r, ∃ m, r = JObj m ∧
                                  (m !! "query" = None ∨ m !! "response" = None))
                  (JObj m0 :: rest)) :
  (__init__ py tok text n g).1 = Raise (KeyError "query") ∨
  (__init__ py tok text n g).1 = Raise (KeyError "response").
Proof.
  rewrite init_fst, Hload, result_bind_Ok.
  rewrite (normalize_without_instruction m0 rest Hfirst).
  destruct (mapM_result_Raise rename (JObj m0 :: rest)
              (λ e, e = KeyError "query" ∨ e = KeyError "response"))
    as (e & [-> | ->] & ->); [..|by left|by right].
  - constructor; [apply rename_dict|].
    eapply Forall_impl; [exact Hdicts|]. intros r [m ->]. apply rename_dict.
  - eapply Exists_impl; [exact Hmissing|]. intros r (m & -> & Hm).
    by apply rename_missing.
Qed.

Lemma alternate_record_missing_key_raises_KeyError_witness :
  (__init__ Cases.python Fixture.char_tokenizer Cases.no_response_file 5 0).1
    = Raise (KeyError "query") ∨
  (__init__ Cases.python Fixture.char_tokenizer Cases.no_response_file 5 0).1
    = Raise (KeyError "response").
Proof.
  apply (alternate_record_missing_key_raises_KeyError Cases.python Fixture.char_tokenizer
           Cases.no_response_file 5 0
           (<["query" := JStr "Say hi."]> (<["response" := JStr "hi"]> ∅))
           [Cases.only_query]).
  - reflexivity.
  - reflexivity.
  - repeat constructor. by eexists.
  - right. constructor. eexists. split; [reflexivity|]. right. reflexivity.
Defined.

(** X13.  After a parse to an array the constructor leaves the generator in
    the state one [random.sample] over all parsed records leaves it in,
    whatever the cap and the tokenizer are and whether or not the dataset
    gets built; the cap never changes what later draws return. *)
Theorem init_draws_one_sample
    {rng : Type} (py : Python rng) (tok tok' : PreTrainedTokenizer)
    (text : string) (l : list json) (n n' : Z) (g : rng)
    (Hparse : parse_file py text = Ok (JArr l)) :
  (__init__ py tok text n g).2 = (random_sample py g l).2 ∧
  (__init__ py tok' text n' g).2 = (__init__ py tok text n g).2.
Proof.
  rewrite !init_snd, !(load_records_array py text l _ g Hparse). done.
Qed.

Lemma init_draws_one_sample_witness :
  (__init__ Fixture.python Fixture.char_tokenizer Fixture.array_file 0 4).2 = 5 ∧
  (__init__ Fixture.python (Cases.truncating_tokenizer 2) Fixture.array_file 9 4).2
  = (__init__ Fixture.python Fixture.char_tokenizer Fixture.array_file 0 4).2.
Proof.
  apply (init_draws_one_sample Fixture.python Fixture.char_tokenizer
           (Cases.truncating_tokenizer 2) Fixture.array_file
           [Fixture.add_1_2; Fixture.no_prompt] 0 9 4).
  reflexivity.
Defined.

(** X14.  Lowering the cap keeps a prefix: when the constructor builds a
    dataset under cap [m], it builds one under every cap [n] with
    [1 ≤ n ≤ m] from the same generator state, and its sources and targets
    are the first [n] sources and targets of the larger dataset. *)
Theorem smaller_cap_keeps_a_prefix
    {rng : Type} (py : Python rng) (laws : PythonLaws py) (tok : PreTrainedTokenizer)
    (text : string) (n m : Z) (g : rng) (ds : SupervisedDataset)
    (Hm : (__init__ py tok text m g).1 = Ok ds)
    (Hnm : (1 ≤ n ≤ m)%Z) :
  (__init__ py tok text n g).1
  = Ok {| sources := take (Z.to_nat n) (sources ds);
          targets := take (Z.to_nat n) (targets ds) |}.
Proof.
  destruct (init_Ok_inv py laws tok text m g ds Hm) as (l & records & Hparse & Hn & Hr).
  rewrite init_fst, (load_records_array py text l n g Hparse). cbn [fst].
  rewrite result_bind_Ok.
  rewrite (slice_to_slice_to _ n m) by lia.
  rewrite (normalize_take _ _ (Z.to_nat n) Hn) by lia.
  rewrite result_bind_Ok. by apply render_take.
Qed.

Lemma smaller_cap_keeps_a_prefix_witness :
  (__init__ Fixture.python Fixture.char_tokenizer Fixture.array_file 1 0).1
  = Ok {| sources :=
            take 1 [ ("<|user|>:" +:+ nl) +:+ "Add 1 and 2." +:+
                     (nl +:+ "<|assistant|>: Let's think step by step and solve the problem with code.");
                     EmptyString ];
          targets := take 1 ["3</s>"; "x</s>"] |}.
Proof.
  apply (smaller_cap_keeps_a_prefix Fixture.python fixture_python_laws
           Fixture.char_tokenizer Fixture.array_file 1 2 0
           {| sources :=
                [ ("<|user|>:" +:+ nl) +:+ "Add 1 and 2." +:+
                  (nl +:+ "<|assistant|>: Let's think step by step and solve the problem with code.");
                  EmptyString ];
              targets := ["3</s>"; "x</s>"] |}).
  - reflexivity.
  - lia.
Defined.



(** X16.  Every non-empty batch of indices below [__len__] of a dataset the
    constructor built is fetched and collated by the lazy collator into
    [input_ids] and [labels] of one shape, one row per index. *)
Theorem batches_of_a_built_dataset_collate
    {rng : Type} (py : Python rng) (laws : PythonLaws py) (tok : PreTrainedTokenizer)
    (text : string) (n : Z) (g : rng) (ds : SupervisedDataset) (indices : list nat)
    (Hds : (__init__ py tok text n g).1 = Ok ds)
    (Hne : indices ≠ [])
    (Hin : Forall (λ i, i < __len__ ds) indices) :
  ∃ items b w,
    mapM (__getitem__ ds) indices = Ok items ∧
    __call__ tok items = Some b ∧
    Tensor.has_shape (batch_input_ids b) (length indices) w ∧
    Tensor.has_shape (batch_labels b) (length indices) w.
Proof.
  destruct (init_Ok_inv py laws tok text n g ds Hds) as (l & records & _ & _ & Hr).
  destruct (render_Ok_inv py tok _ _ Hr) as [Hs Ht].
  apply Forall2_length in Hs, Ht.
  destruct (mapM_result_is_Ok (__getitem__ ds) indices) as [items Hitems].
  { eapply Forall_impl; [exact Hin|]. intros i Hi. unfold __len__ in Hi.
    unfold __getitem__.
    destruct (lookup_lt_is_Some_2 (sources ds) i Hi) as [source ->].
    destruct (lookup_lt_is_Some_2 (targets ds) i) as [target ->]; [lia|].
    by eexists. }
  assert (length items = length indices) as Hlen by (by apply mapM_result_length in Hitems).
  assert (items ≠ []) as Hitems_ne.
  { intros ->. by destruct indices. }
  pose proof (call_Some tok items Hitems_ne) as Hcall. cbv zeta in Hcall.
  set (ids := encode tok <$> zip_with String.append (input_ids <$> items) (labels <$> items))
    in Hcall.
  exists items. eexists. exists (max_list_with length ids).
  split; [done|]. split; [exact Hcall|].
  cbn [batch_input_ids batch_labels].
  assert (length ids = length indices) as Hids.
  { unfold ids. rewrite length_fmap, length_zip_with, !length_fmap. lia. }
  split; (split; [by rewrite ?length_fmap, ?length_mask_labels|]).
  - apply padded_rows_uniform.
  - set (lens := (λ item : instance string, _) <$> items).
    rewrite (max_list_with_length_fmap ids), <-(mask_labels_lengths ids lens),
      <-max_list_with_length_fmap.
    apply padded_rows_uniform.
Qed.

Lemma batches_of_a_built_dataset_collate_witness :
  ∃ items b w,
    mapM (__getitem__ {| sources := [EmptyString]; targets := ["x</s>"] |}) [0; 0] = Ok items ∧
    __call__ Fixture.char_tokenizer items = Some b ∧
    Tensor.has_shape (batch_input_ids b) 2 w ∧
    Tensor.has_shape (batch_labels b) 2 w.
Proof.
  apply (batches_of_a_built_dataset_collate Fixture.python fixture_python_laws
           Fixture.char_tokenizer Fixture.array_file 1 1
           {| sources := [EmptyString]; targets := ["x</s>"] |} [0; 0]).
  - reflexivity.
  - discriminate.
  - repeat constructor.
Defined.

(** ** Reading a file by lines *)

Lemma string_app_cons c (s1 s2 : string) : String c s1 +:+ s2 = String c (s1 +:+ s2).
Proof. done. Qed.

(** X17.  [readlines] splits the text of a file without losing or adding a
    character: the lines concatenate back to the text, no line is empty,
    and a newline occurs in a line only as its last character; so a final
    newline makes no further line. *)
Theorem readlines_splits_at_newlines (text : string) :
  foldr String.append EmptyString (readlines text) = text ∧
  Forall (λ line, line ≠ EmptyString ∧
                  ∃ body, no_newline body ∧ (line = body +:+ nl ∨ line = body))
    (readlines text).
Proof.
  induction text as [|c rest [IHcat IHlines]]; [by split|].
  cbn [readlines]. destruct (Ascii.eqb c "010") eqn:Hc.
  - apply Ascii.eqb_eq in Hc as ->. split.
    + cbn [foldr]. by rewrite IHcat.
    + constructor; [|done]. split; [done|].
      exists EmptyString. split; [|by left]. unfold no_newline. cbn. apply not_elem_of_nil.
  - apply Ascii.eqb_neq in Hc.
    destruct (readlines rest) as [|line lines].
    + cbn in IHcat. subst rest. split; [done|].
      constructor; [|done]. split; [done|].
      exists (String c EmptyString). split; [|by right].
      unfold no_newline. cbn. apply not_elem_of_cons.
      split; [congruence|apply not_elem_of_nil].
    + cbn [foldr] in *. split; [by rewrite string_app_cons, IHcat|].
      apply Forall_cons in IHlines as [[_ (body & Hbody & Hline)] IHlines].
      constructor; [|done]. split; [done|].
      exists (String c body). split.
      * unfold no_newline in *. cbn. apply not_elem_of_cons.
        split; [congruence|done].
      * destruct Hline as [-> | ->]; [left|right]; done.
Qed.

(** ** Averaged embeddings of new tokens *)

Section EmbeddingFacts.

Context {row tokenizer_state special_tokens : Type}.
Variable hf : Transformers row tokenizer_state special_tokens.
Implicit Types (t : list row) (r : row) (k i : nat).

Lemma length_set_last_rows k r t : length (set_last_rows k r t) = length t.
Proof.
  unfold set_last_rows. rewrite length_app, length_take, length_replicate. lia.
Qed.

Lemma lookup_set_last_rows_lt k r t i :
  i < length t - k → set_last_rows k r t !! i = t !! i.
Proof.
  intros Hi. unfold set_last_rows.
  rewrite lookup_app_l by (rewrite length_take; lia).
  by apply lookup_take_lt.
Qed.

Lemma lookup_set_last_rows_ge k r t i :
  length t - k ≤ i → i < length t → set_last_rows k r t !! i = Some r.
Proof.
  intros Hi Hlt. unfold set_last_rows.
  rewrite lookup_app_r by (rewrite length_take; lia).
  apply lookup_replicate_2. rewrite length_take. lia.
Qed.

Lemma rows_before_last_set_last_rows k r t :
  rows_before_last k (set_last_rows k r t) = rows_before_last k t.
Proof.
  unfold rows_before_last. rewrite length_set_last_rows. unfold set_last_rows.
  rewrite take_app_le by (rewrite length_take; lia).
  rewrite take_take. f_equal. lia.
Qed.

Lemma set_last_rows_twice k r t :
  set_last_rows k r (set_last_rows k r t) = set_last_rows k r t.
Proof.
  unfold set_last_rows at 1. rewrite length_set_last_rows.
  unfold set_last_rows. f_equal.
  rewrite take_app_le by (rewrite length_take; lia).
  rewrite take_take. f_equal. lia.
Qed.

(** What the function leaves in the two embedding tensors, tied or not. *)
Lemma smart_resize_tensors (d : special_tokens) (tokenizer tokenizer1 : tokenizer_state)
    (model : PreTrainedModel row) k :
  add_special_tokens hf tokenizer d = (k, tokenizer1) →
  0 < k →
  let model1 := resize_token_embeddings hf model (len hf tokenizer1) in
  let model2 := (smart_tokenizer_and_embedding_resize hf d tokenizer model).2 in
  ∀ loc, loc = input_embeddings model1 ∨ loc = output_embeddings model1 →
    tensors model2 !!! loc
    = set_last_rows k (mean hf (rows_before_last k (tensors model1 !!! loc)))
        (tensors model1 !!! loc).
Proof.
  intros Hadd Hk model1 model2 loc Hloc.
  unfold model2, smart_tokenizer_and_embedding_resize. rewrite Hadd.
  fold model1. rewrite (proj2 (Nat.ltb_lt 0 k) Hk). cbn [snd tensors].
  destruct (decide (input_embeddings model1 = output_embeddings model1)) as [Htied|Hsep].
  - assert (loc = input_embeddings model1) as -> by (by destruct Hloc; congruence).
    rewrite <-Htied. rewrite !lookup_total_insert_eq.
    apply set_last_rows_twice.
  - destruct Hloc as [-> | ->].
    + rewrite lookup_total_insert_ne by done. by rewrite lookup_total_insert_eq.
    + rewrite lookup_total_insert_eq. by rewrite lookup_total_insert_ne.
Qed.

End EmbeddingFacts.

(** X18.  When tokens were added, each embedding matrix keeps its number of
    rows and every row before the last [num_new_tokens]; each of the last
    [num_new_tokens] rows becomes the mean of the rows before them, as
    they were after the resize.  This holds for the input and the output
    embeddings alike, also when the two are one tied tensor that is
    written twice. *)
Theorem new_token_rows_are_the_mean_of_the_others
    {row tokenizer_state special_tokens : Type}
    (hf : Transformers row tokenizer_state special_tokens)
    (d : special_tokens) (tokenizer tokenizer1 : tokenizer_state)
    (model : PreTrainedModel row) (k loc : nat)
    (Hadd : add_special_tokens hf tokenizer d = (k, tokenizer1))
    (Hk : 0 < k)
    (Hloc : loc = input_embeddings (resize_token_embeddings hf model (len hf tokenizer1)) ∨
            loc = output_embeddings (resize_token_embeddings hf model (len hf tokenizer1))) :
  let before := tensors (resize_token_embeddings hf model (len hf tokenizer1)) !!! loc in
  let after :=
    tensors (smart_tokenizer_and_embedding_resize hf d tokenizer model).2 !!! loc in
  length after = length before ∧
  (∀ i, i < length before - k → after !! i = before !! i) ∧
  (∀ i, length before - k ≤ i → i < length before →
        after !! i = Some (mean hf (take (length before - k) before))).
Proof.
  intros before after. unfold after.
  rewrite (smart_resize_tensors hf d tokenizer tokenizer1 model k Hadd Hk loc Hloc).
  fold before. split_and!.
  - apply length_set_last_rows.
  - intros i Hi. by apply lookup_set_last_rows_lt.
  - intros i Hi Hlt. by apply lookup_set_last_rows_ge.
Qed.

Lemma new_token_rows_are_the_mean_of_the_others_witness :
  (tensors (smart_tokenizer_and_embedding_resize Cases.transformers ["[PAD]"] ["a"; "b"]
              Cases.tied_model).2 !!! 0) !! 2
  = Some 3%Z.
Proof.
  destruct (new_token_rows_are_the_mean_of_the_others Cases.transformers
              ["[PAD]"] ["a"; "b"] ["a"; "b"; "[PAD]"] Cases.tied_model 1 0)
    as (_ & _ & Hnew).
  - reflexivity.
  - lia.
  - by left.
  - apply (Hnew 2); vm_compute; lia.
Defined.

(** X19.  The function returns the tokenizer [add_special_tokens] left and
    keeps which tensors are the embeddings; it writes to no tensor other
    than the two embedding matrices; and when no token was added it
    returns the model exactly as the resize left it. *)
Theorem smart_resize_touches_only_the_embeddings
    {row tokenizer_state special_tokens : Type}
    (hf : Transformers row tokenizer_state special_tokens)
    (d : special_tokens) (tokenizer tokenizer1 : tokenizer_state)
    (model : PreTrainedModel row) (k : nat)
    (Hadd : add_special_tokens hf tokenizer d = (k, tokenizer1)) :
  let model1 := resize_token_embeddings hf model (len hf tokenizer1) in
  let result := smart_tokenizer_and_embedding_resize hf d tokenizer model in
  result.1 = tokenizer1 ∧
  input_embeddings result.2 = input_embeddings model1 ∧
  output_embeddings result.2 = output_embeddings model1 ∧
  (∀ loc, loc ≠ input_embeddings model1 → loc ≠ output_embeddings model1 →
          tensors result.2 !! loc = tensors model1 !! loc) ∧
  (k = 0 → result.2 = model1).
Proof.
  intros model1 result. unfold result, smart_tokenizer_and_embedding_resize.
  rewrite Hadd. fold model1.
  destruct (0 <? k) eqn:Hk.
  - cbn [fst snd tensors input_embeddings output_embeddings]. split_and!; try done.
    + intros loc Hin Hout. by rewrite !lookup_insert_ne.
    + intros ->. discriminate Hk.
  - by split_and!.
Qed.

Lemma smart_resize_touches_only_the_embeddings_witness :
  tensors (smart_tokenizer_and_embedding_resize Cases.transformers ["[PAD]"] ["a"; "b"]
             Cases.untied_model).2 !! 2
  = Some [7]%Z.
Proof.
  destruct (smart_resize_touches_only_the_embeddings Cases.transformers
              ["[PAD]"] ["a"; "b"] ["a"; "b"; "[PAD]"] Cases.untied_model 1 eq_refl)
    as (_ & _ & _ & Hframe & _).
  rewrite (Hframe 2); [reflexivity | discriminate | discriminate].
Defined.

(** X20.  The masked span is the count of non-pad ids of the tokenized
    source, not its length: when the pad id occurs in the tokenization of
    the source, fewer leading labels are masked than the source has ids,
    and every label from that count on is the id at its position. *)
Theorem pad_id_inside_source_shortens_the_mask
    (tok : PreTrainedTokenizer) (sources targets : list string) (k : nat)
    (source target : string)
    (Hs : sources !! k = Some source) (Ht : targets !! k = Some target)
    (Hpad : pad_token_id tok ∈ encode tok source) :
  let source_len := Tensor.sum1 (Tensor.ne1 (encode tok source) (pad_token_id tok)) in
  source_len < length (encode tok source) ∧
  ∃ lab, labels (preprocess tok sources targets) !! k = Some lab ∧
         ∀ i, source_len ≤ i → lab !! i = encode tok (source +:+ target) !! i.
Proof.
  intros source_len. split.
  - unfold source_len. rewrite sum1_ne1.
    apply (length_filter_lt _ _ (pad_token_id tok)); [done|]. by intros H.
  - eexists. split; [by apply lookup_preprocess_labels|].
    intros i Hi. by apply lookup_fill_prefix_ge.
Qed.

Lemma pad_id_inside_source_shortens_the_mask_witness :
  let tok := {| encode := λ text, if String.eqb text "ab" then [5; 0]%Z else [5; 0; 7]%Z;
                pad_token_id := 0%Z; eos_token := "</s>" |} in
  1 < 2 ∧
  ∃ lab, labels (preprocess tok ["ab"] ["c"]) !! 0 = Some lab ∧
         ∀ i, 1 ≤ i → lab !! i = [5; 0; 7]%Z !! i.
Proof.
  intros tok.
  apply (pad_id_inside_source_shortens_the_mask tok ["ab"] ["c"] 0 "ab" "c" eq_refl eq_refl).
  cbn. right. left.
Defined.
